(** * Hotel management system (main.go): the stores, the CRUD operations
    and the booking transaction, as a shallow embedding.

    The Go program keeps two global slices, [users] and [rooms], reads the
    terminal line by line and prints messages.  Every operation is embedded
    as a command over a [World] that holds the two slices, the lines still
    to be read, the output printed so far and the answers of the file
    system to the writes still to come. *)

From Stdlib Require Import ZArith Ascii String Floats.
From stdpp Require Import base list strings.

Open Scope Z_scope.

(** ** Machine integers and floats *)

(** Go's [int] on a 64-bit platform: two's complement, arithmetic wraps. *)
Definition int_min : Z := - 2 ^ 63.
Definition int_max : Z := 2 ^ 63 - 1.

Definition is_int (z : Z) : Prop := int_min <= z <= int_max.

Definition wrap64 (z : Z) : Z := (z + 2 ^ 63) mod 2 ^ 64 - 2 ^ 63.

(** The conversion [float64(n)] of an [int]: the nearest binary64 value,
    ties to even. *)
Definition float64_of_int (z : Z) : float :=
  SF2Prim (binary_normalize prec emax z 0 false).

(** ** Data model *)

(** [type User struct].  The field [ID] is [UserID] here, as [Room] has a
    field of the same name. *)
Record User := mkUser {
  UserID : Z;
  Username : string;
  Password : string;
  Role : string;          (* "admin" or "customer" *)
  CustomerType : string;  (* "member" or "regular" *)
  Balance : float
}.

(** [type Room struct].  [ID] is [RoomID] and [Type] is [RoomType]. *)
Record Room := mkRoom {
  RoomID : Z;
  RoomType : string;
  Price : float;
  Total : Z;
  Available : Z
}.

Definition set_Username (s : string) (u : User) : User :=
  mkUser (UserID u) s (Password u) (Role u) (CustomerType u) (Balance u).
Definition set_Password (s : string) (u : User) : User :=
  mkUser (UserID u) (Username u) s (Role u) (CustomerType u) (Balance u).
Definition set_CustomerType (s : string) (u : User) : User :=
  mkUser (UserID u) (Username u) (Password u) (Role u) s (Balance u).
Definition set_Balance (b : float) (u : User) : User :=
  mkUser (UserID u) (Username u) (Password u) (Role u) (CustomerType u) b.

Definition set_RoomType (s : string) (r : Room) : Room :=
  mkRoom (RoomID r) s (Price r) (Total r) (Available r).
Definition set_Price (p : float) (r : Room) : Room :=
  mkRoom (RoomID r) (RoomType r) p (Total r) (Available r).
Definition set_Total (t : Z) (r : Room) : Room :=
  mkRoom (RoomID r) (RoomType r) (Price r) t (Available r).
Definition set_Available (a : Z) (r : Room) : Room :=
  mkRoom (RoomID r) (RoomType r) (Price r) (Total r) a.

(** ** The terminal *)

(** A line as [readLine] returns it (already trimmed).  [strconv.ParseFloat]
    belongs to Go's standard library: a line carries, next to its text,
    the value [ParseFloat(text, 64)] yields on it, [None] for an error. *)
Record Line := mkLine {
  text : string;
  asFloat : option float
}.

Definition emptyLine : Line := mkLine "" None.

(** [strconv.ParseFloat(s, 64)]; the empty string is always an error. *)
Definition ParseFloat (l : Line) : option float :=
  if String.eqb (text l) "" then None else asFloat l.

(** [strconv.Atoi]: an optional sign, then decimal digits only, and the value
    has to fit an [int]. *)
Definition digit (c : ascii) : option Z :=
  let n := Z.of_nat (nat_of_ascii c) - 48 in
  if (0 <=? n) && (n <=? 9) then Some n else None.

Fixpoint digits (s : string) (acc : Z) : option Z :=
  match s with
  | EmptyString => Some acc
  | String c s' =>
      match digit c with
      | Some d => digits s' (acc * 10 + d)
      | None => None
      end
  end.

Definition unsigned (s : string) : option Z :=
  match s with
  | EmptyString => None
  | _ => digits s 0
  end.

Definition Atoi (s : string) : option Z :=
  match s with
  | EmptyString => None
  | String c rest =>
      let v :=
        if Ascii.eqb c "-"%char then option_map Z.opp (unsigned rest)
        else if Ascii.eqb c "+"%char then unsigned rest
        else unsigned s in
      match v with
      | Some n => if (int_min <=? n) && (n <=? int_max) then Some n else None
      | None => None
      end
  end.

(** What the program prints: [fmt.Print], [fmt.Println] and [fmt.Printf]
    with its format string and arguments. *)
Inductive Arg :=
  | AInt (z : Z)
  | AStr (s : string)
  | AFloat (f : float).

Inductive Out :=
  | Print (s : string)
  | Println (s : string)
  | Printf (fmt : string) (args : list Arg).

(** ** State and commands *)

(** [disk] is the environment of [ioutil.WriteFile]: what each write still
    to come returns, [None] when it succeeds and the text of the error
    when it fails; a write after the last answer succeeds. *)
Record World := mkWorld {
  users : list User;
  rooms : list Room;
  stdin : list Line;
  stdout : list Out;
  disk : list (option string)
}.

(** A function body either runs on or has executed [return]. *)
Inductive Flow (A : Type) :=
  | Value (a : A)
  | Returned.
Arguments Value {A} a.
Arguments Returned {A}.

Definition Cmd (A : Type) : Type := World -> Flow A * World.

Definition ret {A} (a : A) : Cmd A := fun w => (Value a, w).

Definition bind {A B} (m : Cmd A) (k : A -> Cmd B) : Cmd B :=
  fun w =>
    match m w with
    | (Value a, w') => k a w'
    | (Returned, w') => (Returned, w')
    end.

Definition return_ {A} : Cmd A := fun w => (Returned, w).

Notation "x <- m ;; k" := (bind m (fun x => k))
  (at level 100, m at next level, right associativity).
Notation "m ;; k" := (bind m (fun _ => k))
  (at level 100, right associativity).

(** Running a [func()] to its end or to its [return]. *)
Definition run (m : Cmd unit) (w : World) : World := snd (m w).

(** A call of a [func()] from inside another one: the callee's [return]
    ends the callee only. *)
Definition call (m : Cmd unit) : Cmd unit := fun w => (Value tt, run m w).

Definition out (o : Out) : Cmd unit :=
  fun w => (Value tt, mkWorld (users w) (rooms w) (stdin w) (stdout w ++ [o]) (disk w)).

Definition print (s : string) : Cmd unit := out (Print s).
Definition println (s : string) : Cmd unit := out (Println s).
Definition printf (fmt : string) (args : list Arg) : Cmd unit :=
  out (Printf fmt args).

(** [readLine]: the next line, which is used up; at end of input
    [ReadString] fails and the result is the empty string. *)
Definition readLine : Cmd Line :=
  fun w =>
    (Value (hd emptyLine (stdin w)),
     mkWorld (users w) (rooms w) (tail (stdin w)) (stdout w) (disk w)).

Definition getUsers : Cmd (list User) := fun w => (Value (users w), w).
Definition getRooms : Cmd (list Room) := fun w => (Value (rooms w), w).

Definition setUsers (us : list User) : Cmd unit :=
  fun w => (Value tt, mkWorld us (rooms w) (stdin w) (stdout w) (disk w)).
Definition setRooms (rs : list Room) : Cmd unit :=
  fun w => (Value tt, mkWorld (users w) rs (stdin w) (stdout w) (disk w)).

(** A [*User] into the slice is the index of the element it points to:
    reading and writing through it reads and writes [users[i]]. *)
Definition derefUser (i : nat) : Cmd User :=
  fun w =>
    match users w !! i with
    | Some u => (Value u, w)
    | None => (Returned, w)
    end.

Definition derefRoom (i : nat) : Cmd Room :=
  fun w =>
    match rooms w !! i with
    | Some r => (Value r, w)
    | None => (Returned, w)
    end.

Definition modifyUser (i : nat) (f : User -> User) : Cmd unit :=
  fun w =>
    (Value tt, mkWorld (alter f i (users w)) (rooms w) (stdin w) (stdout w) (disk w)).

Definition modifyRoom (i : nat) (f : Room -> Room) : Cmd unit :=
  fun w =>
    (Value tt, mkWorld (users w) (alter f i (rooms w)) (stdin w) (stdout w) (disk w)).

Definition when (b : bool) (m : Cmd unit) : Cmd unit :=
  if b then m else ret tt.

Fixpoint forEach {A} (l : list A) (body : A -> Cmd unit) : Cmd unit :=
  match l with
  | [] => ret tt
  | x :: l' => body x ;; forEach l' body
  end.

(** ** The data files *)

(** [fmt.Println(a, b)]: the operands with a space between them. *)
Definition println2 (a b : string) : Cmd unit := out (Println (a ++ " " ++ b)%string).

(** [encoding/json] refuses a [float64] that is not a number or is
    infinite; the error names the value as [strconv.FormatFloat] writes
    it. *)
Definition unsupported (f : float) : option string :=
  if is_nan f then Some "NaN"
  else if (f =? infinity)%float then Some "+Inf"
  else if (f =? neg_infinity)%float then Some "-Inf"
  else None.

(** [json.MarshalIndent] of a slice of records, as far as the program
    looks at it: the error, if any.  [floats] are the [float64] fields in
    the order the encoder meets them, one per record ([Balance] of a user,
    [Price] of a room); every other field is an [int] or a [string], which
    the encoder always takes. *)
Fixpoint MarshalIndent (floats : list float) : option string :=
  match floats with
  | [] => None
  | f :: floats' =>
      match unsupported f with
      | Some v => Some ("json: unsupported value: " ++ v)%string
      | None => MarshalIndent floats'
      end
  end.

(** [ioutil.WriteFile]: the next answer of the file system. *)
Definition WriteFile : Cmd (option string) :=
  fun w =>
    (Value (hd None (disk w)),
     mkWorld (users w) (rooms w) (stdin w) (stdout w) (tail (disk w))).

(** [saveUsers] and [saveRooms].  The content of [users.json] and
    [rooms.json] is not part of [World]; what the program prints when a
    save fails is. *)
Definition saveUsers : Cmd unit :=
  us <- getUsers ;;
  match MarshalIndent (Balance <$> us) with
  | Some err => (println2 "保存用户数据错误：" err ;; return_)
  | None =>
    err <- WriteFile ;;
    match err with
    | Some err => println2 "写入用户数据文件错误：" err
    | None => ret tt
    end
  end.

Definition saveRooms : Cmd unit :=
  rs <- getRooms ;;
  match MarshalIndent (Price <$> rs) with
  | Some err => (println2 "保存房间数据错误：" err ;; return_)
  | None =>
    err <- WriteFile ;;
    match err with
    | Some err => println2 "写入房间数据文件错误：" err
    | None => ret tt
    end
  end.

(** ** Login and registration *)

(** [login]: the pointer it returns is the index of the first user with
    that name and password, [nil] is [None]. *)
Definition login : Cmd (option nat) :=
  print "请输入用户名：" ;;
  username <- readLine ;;
  print "请输入密码：" ;;
  password <- readLine ;;
  us <- getUsers ;;
  match list_find (fun u => Username u = text username /\ Password u = text password) us with
  | Some (i, _) => (println "登录成功！" ;; ret (Some i))
  | None => (println "用户名或密码错误！" ;; ret None)
  end.

(** [getNextUserID] and [getNextRoomID], on the global slice they read. *)
Definition getNextUserID (us : list User) : Z :=
  let maxID :=
    fold_left (fun maxID user => if UserID user >? maxID then UserID user else maxID) us 0 in
  wrap64 (maxID + 1).

Definition getNextRoomID (rs : list Room) : Z :=
  let maxID :=
    fold_left (fun maxID room => if RoomID room >? maxID then RoomID room else maxID) rs 0 in
  wrap64 (maxID + 1).

(** The loop both creation paths start with: the first user of that name
    ends the function. *)
Definition rejectExisting (username : Line) : Cmd unit :=
  us <- getUsers ;;
  forEach us (fun user =>
    when (String.eqb (Username user) (text username))
      (println "用户名已存在！" ;; return_)).

Definition registerCustomer : Cmd unit :=
  println "注册新顾客账号" ;;
  print "请输入用户名：" ;;
  username <- readLine ;;
  rejectExisting username ;;
  print "请输入密码：" ;;
  password <- readLine ;;
  print "请选择顾客类型（1. 会员账号 2. 普通账号）：" ;;
  choice <- readLine ;;
  let customerType := if String.eqb (text choice) "1" then "member" else "regular" in
  us <- getUsers ;;
  let newUser :=
    mkUser (getNextUserID us) (text username) (text password)
           "customer" customerType 1000%float in
  setUsers (us ++ [newUser]) ;;
  call saveUsers ;;
  println "注册成功！初始余额为 1000 元。".

(** ** Administrator: users *)

Definition listUsers : Cmd unit :=
  println "----- 所有用户列表 -----" ;;
  us <- getUsers ;;
  forEach us (fun user =>
    printf "ID: %d, 用户名: %s, 角色: %s"
           [AInt (UserID user); AStr (Username user); AStr (Role user)] ;;
    when (String.eqb (Role user) "customer")
      (printf ", 类型: %s, 余额: %.2f"
              [AStr (CustomerType user); AFloat (Balance user)]) ;;
    println "").

Definition addUser : Cmd unit :=
  println "----- 添加新用户 -----" ;;
  print "请输入用户名：" ;;
  username <- readLine ;;
  rejectExisting username ;;
  print "请输入密码：" ;;
  password <- readLine ;;
  print "请选择角色（1. 管理员 2. 顾客）：" ;;
  roleChoice <- readLine ;;
  chosen <-
    (if String.eqb (text roleChoice) "1" then ret ("admin", "", 0%float)
     else if String.eqb (text roleChoice) "2" then
       (print "请选择顾客类型（1. 会员账号 2. 普通账号）：" ;;
        ctChoice <- readLine ;;
        ret ("customer",
             if String.eqb (text ctChoice) "1" then "member" else "regular",
             1000%float))
     else (println "无效的角色选项" ;; return_)) ;;
  let '(role, customerType, balance) := chosen in
  us <- getUsers ;;
  let newUser :=
    mkUser (getNextUserID us) (text username) (text password)
           role customerType balance in
  setUsers (us ++ [newUser]) ;;
  call saveUsers ;;
  println "用户添加成功！".

Definition updateUser : Cmd unit :=
  print "请输入要修改的用户ID：" ;;
  idStr <- readLine ;;
  match Atoi (text idStr) with
  | None => (println "无效的ID" ;; return_)
  | Some id =>
    us <- getUsers ;;
    match list_find (fun u => UserID u = id) us with
    | None => (println "未找到该用户" ;; return_)
    | Some (i, _) =>
      user <- derefUser i ;;
      printf "当前用户名: %s\n" [AStr (Username user)] ;;
      print "请输入新的用户名（直接回车保持不变）：" ;;
      newUsername <- readLine ;;
      when (negb (String.eqb (text newUsername) ""))
        (modifyUser i (set_Username (text newUsername))) ;;
      print "请输入新的密码（直接回车保持不变）：" ;;
      newPassword <- readLine ;;
      when (negb (String.eqb (text newPassword) ""))
        (modifyUser i (set_Password (text newPassword))) ;;
      user <- derefUser i ;;
      when (String.eqb (Role user) "customer")
        (printf "当前顾客类型: %s\n" [AStr (CustomerType user)] ;;
         print "请选择新的顾客类型（1. 会员账号 2. 普通账号，回车保持不变）：" ;;
         ctChoice <- readLine ;;
         (if String.eqb (text ctChoice) "1" then modifyUser i (set_CustomerType "member")
          else if String.eqb (text ctChoice) "2" then modifyUser i (set_CustomerType "regular")
          else ret tt) ;;
         user <- derefUser i ;;
         printf "当前余额: %.2f\n" [AFloat (Balance user)] ;;
         print "请输入新的余额（回车保持不变）：" ;;
         balanceStr <- readLine ;;
         when (negb (String.eqb (text balanceStr) ""))
           match ParseFloat balanceStr with
           | Some b => modifyUser i (set_Balance b)
           | None => println "无效的余额输入"
           end) ;;
      call saveUsers ;;
      println "用户信息更新成功"
    end
  end.

Definition deleteUser : Cmd unit :=
  print "请输入要删除的用户ID：" ;;
  idStr <- readLine ;;
  match Atoi (text idStr) with
  | None => (println "无效的ID" ;; return_)
  | Some id =>
    us <- getUsers ;;
    match list_find (fun u => UserID u = id) us with
    | None => (println "未找到该用户" ;; return_)
    | Some (index, _) =>
      print "确定要删除该用户吗？(y/n): " ;;
      confirm <- readLine ;;
      when (negb (String.eqb (text confirm) "y") && negb (String.eqb (text confirm) "Y"))
        return_ ;;
      us <- getUsers ;;
      setUsers (take index us ++ drop (S index) us) ;;
      call saveUsers ;;
      println "用户删除成功"
    end
  end.

(** ** Administrator: rooms *)

Definition listRooms : Cmd unit :=
  rs <- getRooms ;;
  when (Nat.eqb (length rs) 0) (println "当前无房间信息" ;; return_) ;;
  println "----- 房间列表 -----" ;;
  forEach rs (fun room =>
    printf "ID: %d, 类型: %s, 价格: %.2f, 总数: %d, 剩余: %d\n"
           [AInt (RoomID room); AStr (RoomType room); AFloat (Price room);
            AInt (Total room); AInt (Available room)]).

Definition addRoom : Cmd unit :=
  println "----- 添加新房间 -----" ;;
  print "请输入房间类型：" ;;
  roomType <- readLine ;;
  print "请输入房间价格：" ;;
  priceStr <- readLine ;;
  match ParseFloat priceStr with
  | None => (println "无效的价格输入" ;; return_)
  | Some price =>
    print "请输入房间总数：" ;;
    totalStr <- readLine ;;
    match Atoi (text totalStr) with
    | None => (println "无效的房间数量" ;; return_)
    | Some total =>
      rs <- getRooms ;;
      let newRoom := mkRoom (getNextRoomID rs) (text roomType) price total total in
      setRooms (rs ++ [newRoom]) ;;
      call saveRooms ;;
      println "房间添加成功！"
    end
  end.

(** The total adjustment of [updateRoom]: the available count moves with
    the total and is set to 0 when it would be negative. *)
Definition adjustTotal (total : Z) (room : Room) : Room :=
  let diff := wrap64 (total - Total room) in
  let room := set_Total total room in
  let room := set_Available (wrap64 (Available room + diff)) room in
  if Available room <? 0 then set_Available 0 room else room.

Definition updateRoom : Cmd unit :=
  print "请输入要修改的房间ID：" ;;
  idStr <- readLine ;;
  match Atoi (text idStr) with
  | None => (println "无效的ID" ;; return_)
  | Some id =>
    rs <- getRooms ;;
    match list_find (fun r => RoomID r = id) rs with
    | None => (println "未找到该房间" ;; return_)
    | Some (i, _) =>
      room <- derefRoom i ;;
      printf "当前房间类型: %s\n" [AStr (RoomType room)] ;;
      print "请输入新的房间类型（回车保持不变）：" ;;
      newType <- readLine ;;
      when (negb (String.eqb (text newType) ""))
        (modifyRoom i (set_RoomType (text newType))) ;;
      room <- derefRoom i ;;
      printf "当前价格: %.2f\n" [AFloat (Price room)] ;;
      print "请输入新的价格（回车保持不变）：" ;;
      priceStr <- readLine ;;
      when (negb (String.eqb (text priceStr) ""))
        match ParseFloat priceStr with
        | Some price => modifyRoom i (set_Price price)
        | None => println "无效的价格输入"
        end ;;
      room <- derefRoom i ;;
      printf "当前总数: %d\n" [AInt (Total room)] ;;
      print "请输入新的总数（回车保持不变）：" ;;
      totalStr <- readLine ;;
      when (negb (String.eqb (text totalStr) ""))
        match Atoi (text totalStr) with
        | Some total => modifyRoom i (adjustTotal total)
        | None => println "无效的数量输入"
        end ;;
      call saveRooms ;;
      println "房间信息更新成功"
    end
  end.

Definition deleteRoom : Cmd unit :=
  print "请输入要删除的房间ID：" ;;
  idStr <- readLine ;;
  match Atoi (text idStr) with
  | None => (println "无效的ID" ;; return_)
  | Some id =>
    rs <- getRooms ;;
    match list_find (fun r => RoomID r = id) rs with
    | None => (println "未找到该房间" ;; return_)
    | Some (index, _) =>
      print "确定要删除该房间吗？(y/n): " ;;
      confirm <- readLine ;;
      when (negb (String.eqb (text confirm) "y") && negb (String.eqb (text confirm) "Y"))
        return_ ;;
      rs <- getRooms ;;
      setRooms (take index rs ++ drop (S index) rs) ;;
      call saveRooms ;;
      println "房间删除成功"
    end
  end.

(** ** Customer: booking *)

(** [bookRoom(customer)]: [customer] is the pointer [login] returned, the
    index of the logged-in user in [users]. *)
Definition bookRoom (customer : nat) : Cmd unit :=
  rs <- getRooms ;;
  when (Nat.eqb (length rs) 0) (println "当前无可预订的房间" ;; return_) ;;
  call listRooms ;;
  print "请输入要预订的房间ID：" ;;
  idStr <- readLine ;;
  match Atoi (text idStr) with
  | None => (println "无效的房间ID" ;; return_)
  | Some id =>
    rs <- getRooms ;;
    match list_find (fun r => RoomID r = id) rs with
    | None => (println "未找到该房间" ;; return_)
    | Some (i, _) =>
      room <- derefRoom i ;;
      printf "选择的房间: %s, 单价: %.2f, 剩余数量: %d\n"
             [AStr (RoomType room); AFloat (Price room); AInt (Available room)] ;;
      print "请输入预订数量：" ;;
      quantityStr <- readLine ;;
      match Atoi (text quantityStr) with
      | None => (println "无效的数量" ;; return_)
      | Some quantity =>
        when (quantity <=? 0) (println "无效的数量" ;; return_) ;;
        when (quantity >? Available room) (println "预订数量超过剩余房间数" ;; return_) ;;
        let totalCost := (Price room * float64_of_int quantity)%float in
        c <- derefUser customer ;;
        when (Balance c <? totalCost)%float (println "余额不足，无法预订" ;; return_) ;;
        modifyUser customer (fun c => set_Balance (Balance c - totalCost)%float c) ;;
        modifyRoom i (fun r => set_Available (wrap64 (Available r - quantity)) r) ;;
        call saveUsers ;;
        call saveRooms ;;
        c <- derefUser customer ;;
        printf "预订成功！共扣款 %.2f 元，剩余余额: %.2f\n"
               [AFloat totalCost; AFloat (Balance c)]
      end
    end
  end.

(** ** The operations the menus dispatch to *)

Inductive Op :=
  | OpLogin
  | OpRegisterCustomer
  | OpListUsers
  | OpAddUser
  | OpUpdateUser
  | OpDeleteUser
  | OpListRooms
  | OpAddRoom
  | OpUpdateRoom
  | OpDeleteRoom
  | OpBookRoom (customer : nat).

Definition operation (op : Op) : Cmd unit :=
  match op with
  | OpLogin => (_ <- login ;; ret tt)
  | OpRegisterCustomer => registerCustomer
  | OpListUsers => listUsers
  | OpAddUser => addUser
  | OpUpdateUser => updateUser
  | OpDeleteUser => deleteUser
  | OpListRooms => listRooms
  | OpAddRoom => addRoom
  | OpUpdateRoom => updateRoom
  | OpDeleteRoom => deleteRoom
  | OpBookRoom customer => bookRoom customer
  end.

Definition step (op : Op) (w : World) : World := run (operation op) w.

(** A session: the operations chosen one after the other. *)
Definition session (ops : list Op) (w : World) : World :=
  fold_left (fun w op => step op w) ops w.

(** ** Reading the input *)

(** The [n]-th line still to be read; the empty line once the input has
    ended. *)
Fixpoint skip (n : nat) (l : list Line) : list Line :=
  match n with
  | O => l
  | S n' => skip n' (tail l)
  end.

Definition input (n : nat) (w : World) : Line := hd emptyLine (skip n (stdin w)).

Definition consume (w : World) : World :=
  mkWorld (users w) (rooms w) (tail (stdin w)) (stdout w) (disk w).

Definition say (o : Out) (w : World) : World :=
  mkWorld (users w) (rooms w) (stdin w) (stdout w ++ [o]) (disk w).

(** The stores of two worlds agree. *)
Definition same_stores (w w' : World) : Prop :=
  users w' = users w /\ rooms w' = rooms w.

(** The last thing printed. *)
Definition reported (o : Out) (w : World) : Prop := last (stdout w) = Some o.

Definition says (os : list Out) (w : World) : World :=
  mkWorld (users w) (rooms w) (stdin w) (stdout w ++ os) (disk w).

(** What a save prints, and what it leaves of the answers of the disk:
    [refused] and [failed] are the two messages of the save, [floats] the
    [float64] fields it encodes. *)
Definition saveReport (floats : list float) (refused failed : string)
    (answers : list (option string)) : list Out :=
  match MarshalIndent floats with
  | Some err => [Println (refused ++ " " ++ err)%string]
  | None =>
      match hd None answers with
      | Some err => [Println (failed ++ " " ++ err)%string]
      | None => []
      end
  end.

Definition afterSave (floats : list float) (answers : list (option string)) :
    list (option string) :=
  match MarshalIndent floats with
  | Some _ => answers
  | None => tail answers
  end.

(** The world after [saveUsers()] and after [saveRooms()]. *)
Definition usersSaved (w : World) : World :=
  mkWorld (users w) (rooms w) (stdin w)
    (stdout w ++
     saveReport (Balance <$> users w) "保存用户数据错误：" "写入用户数据文件错误：" (disk w))
    (afterSave (Balance <$> users w) (disk w)).

Definition roomsSaved (w : World) : World :=
  mkWorld (users w) (rooms w) (stdin w)
    (stdout w ++
     saveReport (Price <$> rooms w) "保存房间数据错误：" "写入房间数据文件错误：" (disk w))
    (afterSave (Price <$> rooms w) (disk w)).

(** An operation that gave up: the stores are as before and the last
    thing printed is the message. *)
Definition aborted (msg : string) (w w' : World) : Prop :=
  same_stores w w' /\ reported (Println msg) w'.

(** What [listRooms] prints for one record. *)
Definition roomListing (room : Room) : list Out :=
  [Printf "ID: %d, 类型: %s, 价格: %.2f, 总数: %d, 剩余: %d\n"
          [AInt (RoomID room); AStr (RoomType room); AFloat (Price room);
           AInt (Total room); AInt (Available room)]].

(** A command that leaves a component of the world as it found it. *)
Definition preserves {A X} (f : World -> X) (m : Cmd A) : Prop :=
  forall w, f (m w).2 = f w.

(** The record [updateUser] leaves in place of the user [u] it found,
    given the lines typed after the ID. *)
Definition updatedUser (w : World) (u : User) : User :=
  let u1 :=
    if String.eqb (text (input 1 w)) "" then u
    else set_Username (text (input 1 w)) u in
  let u2 :=
    if String.eqb (text (input 2 w)) "" then u1
    else set_Password (text (input 2 w)) u1 in
  if String.eqb (Role u) "customer" then
    let u3 :=
      if String.eqb (text (input 3 w)) "1" then set_CustomerType "member" u2
      else if String.eqb (text (input 3 w)) "2" then set_CustomerType "regular" u2
      else u2 in
    if String.eqb (text (input 4 w)) "" then u3
    else match ParseFloat (input 4 w) with
         | Some b => set_Balance b u3
         | None => u3
         end
  else u2.

(** The record [updateRoom] leaves in place of the room it found. *)
Definition updatedRoom (w : World) (room : Room) : Room :=
  let r1 :=
    if String.eqb (text (input 1 w)) "" then room
    else set_RoomType (text (input 1 w)) room in
  let r2 :=
    if String.eqb (text (input 2 w)) "" then r1
    else match ParseFloat (input 2 w) with
         | Some price => set_Price price r1
         | None => r1
         end in
  if String.eqb (text (input 3 w)) "" then r2
  else match Atoi (text (input 3 w)) with
       | Some total => adjustTotal total r2
       | None => r2
       end.

(** Whether a user of that name exists. *)
Definition nameTaken (name : string) (us : list User) : bool :=
  existsb (fun u => String.eqb (Username u) name) us.

(** ** The menus *)

(** Every menu is an endless [for] loop around a [switch] on the line
    read.  [fuel] bounds how many times a loop goes round; [None] is a
    loop still running when the fuel is used up. *)

(** The line a prompt reads, and the world after it. *)
Definition ask (prompt : Cmd Line) (w : World) : Line * World :=
  match prompt w with
  | (Value choice, w') => (choice, w')
  | (Returned, w') => (emptyLine, w')
  end.

Definition customerPrompt : Cmd Line :=
  println "================================" ;;
  println "顾客菜单" ;;
  println "1. 查看房间信息" ;;
  println "2. 预订房间" ;;
  println "3. 查看余额" ;;
  println "4. 退出" ;;
  print "请选择操作：" ;;
  readLine.

Definition showBalance (user : nat) : Cmd unit :=
  u <- derefUser user ;;
  printf "当前余额: %.2f\n" [AFloat (Balance u)].

Fixpoint customerMenu (fuel : nat) (user : nat) (w : World) : option World :=
  match fuel with
  | O => None
  | S fuel' =>
      let (choice, w1) := ask customerPrompt w in
      if String.eqb (text choice) "1" then customerMenu fuel' user (run listRooms w1)
      else if String.eqb (text choice) "2" then
        customerMenu fuel' user (run (bookRoom user) w1)
      else if String.eqb (text choice) "3" then
        customerMenu fuel' user (run (showBalance user) w1)
      else if String.eqb (text choice) "4" then
        Some (run (println "注销成功" ;; call saveUsers) w1)
      else customerMenu fuel' user (run (println "无效的选项，请重试。") w1)
  end.

Definition userManagementPrompt : Cmd Line :=
  println "--------- 用户管理 ---------" ;;
  println "1. 查看所有用户" ;;
  println "2. 添加用户" ;;
  println "3. 修改用户" ;;
  println "4. 删除用户" ;;
  println "5. 返回上一层" ;;
  print "请选择操作：" ;;
  readLine.

Fixpoint adminUserManagement (fuel : nat) (w : World) : option World :=
  match fuel with
  | O => None
  | S fuel' =>
      let (choice, w1) := ask userManagementPrompt w in
      if String.eqb (text choice) "1" then adminUserManagement fuel' (run listUsers w1)
      else if String.eqb (text choice) "2" then adminUserManagement fuel' (run addUser w1)
      else if String.eqb (text choice) "3" then adminUserManagement fuel' (run updateUser w1)
      else if String.eqb (text choice) "4" then adminUserManagement fuel' (run deleteUser w1)
      else if String.eqb (text choice) "5" then Some w1
      else adminUserManagement fuel' (run (println "无效的选项，请重试。") w1)
  end.

Definition roomManagementPrompt : Cmd Line :=
  println "--------- 房间管理 ---------" ;;
  println "1. 查看所有房间" ;;
  println "2. 添加房间" ;;
  println "3. 修改房间" ;;
  println "4. 删除房间" ;;
  println "5. 返回上一层" ;;
  print "请选择操作：" ;;
  readLine.

Fixpoint adminRoomManagement (fuel : nat) (w : World) : option World :=
  match fuel with
  | O => None
  | S fuel' =>
      let (choice, w1) := ask roomManagementPrompt w in
      if String.eqb (text choice) "1" then adminRoomManagement fuel' (run listRooms w1)
      else if String.eqb (text choice) "2" then adminRoomManagement fuel' (run addRoom w1)
      else if String.eqb (text choice) "3" then adminRoomManagement fuel' (run updateRoom w1)
      else if String.eqb (text choice) "4" then adminRoomManagement fuel' (run deleteRoom w1)
      else if String.eqb (text choice) "5" then Some w1
      else adminRoomManagement fuel' (run (println "无效的选项，请重试。") w1)
  end.

Definition adminPrompt : Cmd Line :=
  println "================================" ;;
  println "管理员菜单" ;;
  println "1. 用户管理" ;;
  println "2. 房间管理" ;;
  println "3. 退出" ;;
  print "请选择操作：" ;;
  readLine.

(** [adminMenu(user)]: the pointer is not used. *)
Fixpoint adminMenu (fuel : nat) (w : World) : option World :=
  match fuel with
  | O => None
  | S fuel' =>
      let (choice, w1) := ask adminPrompt w in
      if String.eqb (text choice) "1" then
        match adminUserManagement fuel' w1 with
        | Some w2 => adminMenu fuel' w2
        | None => None
        end
      else if String.eqb (text choice) "2" then
        match adminRoomManagement fuel' w1 with
        | Some w2 => adminMenu fuel' w2
        | None => None
        end
      else if String.eqb (text choice) "3" then Some (run (println "注销成功") w1)
      else adminMenu fuel' (run (println "无效的选项，请重试。") w1)
  end.

Definition mainPrompt : Cmd Line :=
  println "================================" ;;
  println "欢迎使用酒店管理系统" ;;
  println "1. 登录" ;;
  println "2. 注册（仅限顾客）" ;;
  println "3. 退出" ;;
  print "请选择操作：" ;;
  readLine.

(** The loop of [main], entered once the two stores are loaded. *)
Fixpoint mainLoop (fuel : nat) (w : World) : option World :=
  match fuel with
  | O => None
  | S fuel' =>
      let (choice, w1) := ask mainPrompt w in
      if String.eqb (text choice) "1" then
        match login w1 with
        | (Value (Some i), w2) =>
            match users w2 !! i with
            | Some user =>
                if String.eqb (Role user) "admin" then
                  match adminMenu fuel' w2 with
                  | Some w3 => mainLoop fuel' w3
                  | None => None
                  end
                else if String.eqb (Role user) "customer" then
                  match customerMenu fuel' i w2 with
                  | Some w3 => mainLoop fuel' w3
                  | None => None
                  end
                else mainLoop fuel' w2
            | None => mainLoop fuel' w2
            end
        | (_, w2) => mainLoop fuel' w2
        end
      else if String.eqb (text choice) "2" then mainLoop fuel' (run registerCustomer w1)
      else if String.eqb (text choice) "3" then Some (run (println "退出系统") w1)
      else mainLoop fuel' (run (println "无效的选项，请重试。") w1)
  end.

(** ** What the specification speaks of *)

(** The constraints on a room record; [Total] is an [int]. *)
Definition room_ok (r : Room) : Prop :=
  (0 <=? Price r)%float = true /\
  0 <= Total r <= int_max /\
  0 <= Available r <= Total r.

(** The price and the total typed into an operation, where it reads and
    parses them, are not negative. *)
Definition entered_nonneg (op : Op) (w : World) : Prop :=
  match op with
  | OpAddRoom =>
      (forall p, ParseFloat (input 1 w) = Some p -> (0 <=? p)%float = true) /\
      (forall t, Atoi (text (input 2 w)) = Some t -> 0 <= t)
  | OpUpdateRoom =>
      (forall p, ParseFloat (input 2 w) = Some p -> (0 <=? p)%float = true) /\
      (forall t, Atoi (text (input 3 w)) = Some t -> 0 <= t)
  | _ => True
  end.

(** The largest of the IDs and 0. *)
Definition largest (ids : list Z) : Z := foldr Z.max 0 ids.

(** [n] is one more than the largest ID and differs from all of them. *)
Definition fresh_id (ids : list Z) (n : Z) : Prop :=
  n = largest ids + 1 /\ forall x, x ∈ ids -> x <> n.

(** At most one record was appended, and it got the next ID. *)
Definition user_added (w w' : World) : Prop :=
  users w' = users w \/
  exists u, users w' = users w ++ [u] /\ UserID u = getNextUserID (users w).

Definition room_added (w w' : World) : Prop :=
  rooms w' = rooms w \/
  exists r, rooms w' = rooms w ++ [r] /\ RoomID r = getNextRoomID (rooms w).

(** The float is finite and its value is the integer [z]:
    [(-1)^s * m * 2^e = z], written without fractions. *)
Definition SFrepresents (x : spec_float) (z : Z) : Prop :=
  match x with
  | S754_zero _ => z = 0
  | S754_finite s m e =>
      cond_Zopp s (Z.pos m) * 2 ^ Z.max 0 e = z * 2 ^ Z.max 0 (- e)
  | _ => False
  end.

Definition represents (f : float) (z : Z) : Prop := SFrepresents (Prim2SF f) z.




(** Input that makes an operation give up at once, with the message. *)
Inductive invalid_input (w : World) : Op -> string -> Prop :=
  | user_id_not_a_number (op : Op) :
      op = OpUpdateUser \/ op = OpDeleteUser ->
      Atoi (text (input 0 w)) = None ->
      invalid_input w op "无效的ID"
  | room_id_not_a_number (op : Op) :
      op = OpUpdateRoom \/ op = OpDeleteRoom ->
      Atoi (text (input 0 w)) = None ->
      invalid_input w op "无效的ID"
  | user_missing (op : Op) (id : Z) :
      op = OpUpdateUser \/ op = OpDeleteUser ->
      Atoi (text (input 0 w)) = Some id ->
      (forall u, u ∈ users w -> UserID u <> id) ->
      invalid_input w op "未找到该用户"
  | room_missing (op : Op) (id : Z) :
      op = OpUpdateRoom \/ op = OpDeleteRoom ->
      Atoi (text (input 0 w)) = Some id ->
      (forall r, r ∈ rooms w -> RoomID r <> id) ->
      invalid_input w op "未找到该房间"
  | new_price_unparsable :
      ParseFloat (input 1 w) = None ->
      invalid_input w OpAddRoom "无效的价格输入"
  | new_total_unparsable (price : float) :
      ParseFloat (input 1 w) = Some price ->
      Atoi (text (input 2 w)) = None ->
      invalid_input w OpAddRoom "无效的房间数量"
  | booked_id_not_a_number (customer : nat) :
      rooms w <> [] ->
      Atoi (text (input 0 w)) = None ->
      invalid_input w (OpBookRoom customer) "无效的房间ID"
  | booked_room_missing (customer : nat) (id : Z) :
      rooms w <> [] ->
      Atoi (text (input 0 w)) = Some id ->
      (forall r, r ∈ rooms w -> RoomID r <> id) ->
      invalid_input w (OpBookRoom customer) "未找到该房间"
  | booked_quantity_unparsable (customer : nat) (id : Z) (r : Room) :
      Atoi (text (input 0 w)) = Some id ->
      r ∈ rooms w -> RoomID r = id ->
      Atoi (text (input 1 w)) = None ->
      invalid_input w (OpBookRoom customer) "无效的数量".

(** A field after the line typed for it: the line, or the old value when
    the line is empty. *)
Definition entered (l : Line) (old : string) : string :=
  if String.eqb (text l) "" then old else text l.

(** A customer type after the choice typed for it: 1 and 2 choose, any
    other line keeps the old one. *)
Definition chosenType (l : Line) (old : string) : string :=
  if String.eqb (text l) "1" then "member"
  else if String.eqb (text l) "2" then "regular"
  else old.

(** A price after the line typed for it: the old one when the line is
    empty or does not parse. *)
Definition enteredPrice (l : Line) (old : float) : float :=
  match ParseFloat l with
  | Some price => price
  | None => old
  end.

(** The total and the available count of a room after the line typed for
    the total: as they were when the line is empty or does not parse. *)
Definition enteredTotal (l : Line) (r : Room) : Z * Z :=
  match Atoi (text l) with
  | Some total =>
      (total, Z.max 0 (wrap64 (Available r + wrap64 (total - Total r))))
  | None => (Total r, Available r)
  end.

(** How one operation may move the available count of a room that stays
    in place: update-room leaves it, or sets it to the old count plus the
    change of the total, in [int] arithmetic, and to 0 when that is
    negative; a booking never raises it. *)
Definition available_moves (op : Op) (r r' : Room) : Prop :=
  match op with
  | OpUpdateRoom =>
      (Total r' = Total r /\ Available r' = Available r) \/
      Available r' = Z.max 0 (wrap64 (Available r + wrap64 (Total r' - Total r)))
  | OpBookRoom _ => Available r' <= Available r
  | _ => r' = r
  end.

(** ** Further notions *)

(** The name and the password typed at [login] are those of [u]. *)
Definition credentials_match (w : World) (u : User) : Prop :=
  Username u = text (input 0 w) /\ Password u = text (input 1 w).

(** What [listUsers] prints for one record. *)
Definition userListing (user : User) : list Out :=
  [Printf "ID: %d, 用户名: %s, 角色: %s"
          [AInt (UserID user); AStr (Username user); AStr (Role user)]]
  ++ (if String.eqb (Role user) "customer"
      then [Printf ", 类型: %s, 余额: %.2f"
                   [AStr (CustomerType user); AFloat (Balance user)]]
      else [])
  ++ [Println ""].

(** [u'] is [u] but for the balance; [r'] is [r] but for an available
    count that is not larger. *)
Definition only_balance (u u' : User) : Prop := u' = set_Balance (Balance u') u.

Definition only_available (r r' : Room) : Prop :=
  r' = set_Available (Available r') r /\ Available r' <= Available r.

(** Every account is still in its place, with at most its balance changed. *)
Definition accounts_kept (us us' : list User) : Prop :=
  forall j u, us !! j = Some u -> exists u', us' !! j = Some u' /\ only_balance u u'.

(** What a session of the customer at index [c] may have done. *)
Definition customer_session (c : nat) (w w' : World) : Prop :=
  length (users w') = length (users w) /\
  (forall j u, users w !! j = Some u ->
     exists u', users w' !! j = Some u' /\ only_balance u u' /\ (j <> c -> u' = u)) /\
  Forall2 only_available (rooms w) (rooms w').

Definition no_admin (us : list User) : Prop :=
  Forall (fun u => Role u <> "admin") us.




(** A prompt prints, reads one line and touches nothing else. *)
Definition plain (prompt : Cmd Line) : Prop :=
  forall w,
    (ask prompt w).1 = input 0 w /\
    users (ask prompt w).2 = users w /\
    rooms (ask prompt w).2 = rooms w /\
    stdin (ask prompt w).2 = tail (stdin w).

(** ** Sample data *)

Definition typed (s : string) : Line := mkLine s None.
Definition number (s : string) (f : float) : Line := mkLine s (Some f).

Definition admin : User := mkUser 1 "admin" "admin" "admin" "" 0%float.
Definition alice : User := mkUser 2 "alice" "secret" "customer" "regular" 1000%float.
Definition single : Room := mkRoom 1 "Single" 100%float 5 5.

(** The hotel with two users and one kind of room, and what is typed. *)
Definition hotel (lines : list Line) : World :=
  mkWorld [admin; alice] [single] lines [] [].

(** ** Basic facts *)

Lemma wrap64_id (z : Z) : is_int z -> wrap64 z = z.
Proof.
  unfold is_int, int_min, int_max, wrap64. intros H.
  rewrite Z.mod_small; lia.
Qed.

Lemma wrap64_is_int (z : Z) : is_int (wrap64 z).
Proof.
  unfold is_int, int_min, int_max, wrap64.
  pose proof (Z.mod_pos_bound (z + 2 ^ 63) (2 ^ 64)). lia.
Qed.

(** Wrapping never raises a number that was not negative. *)
Lemma wrap64_le (z : Z) : 0 <= z -> wrap64 z <= z.
Proof.
  intros H. destruct (Z_le_gt_dec z int_max) as [Hs|Hb].
  - rewrite wrap64_id; [lia | unfold is_int, int_min, int_max in *; lia].
  - pose proof (wrap64_is_int z) as Hw. unfold is_int in Hw. lia.
Qed.

Lemma Atoi_is_int (s : string) (n : Z) : Atoi s = Some n -> is_int n.
Proof.
  unfold Atoi. destruct s as [|c rest]; [discriminate|].
  match goal with |- context [match ?v with Some _ => _ | None => _ end] =>
    destruct v as [m|]; [|discriminate] end.
  destruct (int_min <=? m) eqn:Hlo; [|discriminate].
  destruct (m <=? int_max) eqn:Hhi; [|discriminate].
  simpl. intros [= <-]. unfold is_int. lia.
Qed.

(** Comparison of floats: [x <= y] excludes [y < x]. *)
Lemma SFcompare_antisym (x y : spec_float) :
  SFcompare y x = option_map CompOpp (SFcompare x y).
Proof.
  destruct x as [sx|sx| |sx mx ex], y as [sy|sy| |sy my ey];
    try destruct sx; try destruct sy; simpl; try reflexivity.
  all: rewrite (Z.compare_antisym ey ex);
    destruct (ey ?= ex); simpl; try reflexivity;
    rewrite ?CompOpp_involutive, Pos.compare_cont_antisym; reflexivity.
Qed.

Lemma float_leb_not_ltb (x y : float) :
  (x <=? y)%float = true -> (y <? x)%float = false.
Proof.
  rewrite leb_spec, ltb_spec. unfold SFleb, SFltb.
  rewrite (SFcompare_antisym (Prim2SF x) (Prim2SF y)).
  destruct (SFcompare (Prim2SF x) (Prim2SF y)) as [[]|]; simpl; congruence.
Qed.

(** ** Lists: searching and updating in place *)

Lemma nil_or_not {A} (l : list A) : l = [] \/ l <> [].
Proof. destruct l; [left; reflexivity | right; discriminate]. Qed.

Lemma nonempty_length {A} (l : list A) : l <> [] -> Nat.eqb (length l) 0 = false.
Proof. destruct l; [congruence | reflexivity]. Qed.

Section Find.
Context {A : Type} (P : A -> Prop) `{forall x, Decision (P x)}.

Lemma found_nonempty (l : list A) (i : nat) (x : A) :
    list_find P l = Some (i, x) -> l <> [].
  Proof. destruct l; [discriminate | congruence]. Qed.

Lemma found_lookup (l : list A) (i : nat) (x : A) :
    list_find P l = Some (i, x) -> l !! i = Some x.
  Proof. intros E. apply list_find_Some in E. apply E. Qed.

Lemma found_holds (l : list A) (i : nat) (x : A) :
    list_find P l = Some (i, x) -> P x.
  Proof. intros E. apply list_find_Some in E. apply E. Qed.

Lemma missing_all (l : list A) :
    (forall x, x ∈ l -> ~ P x) -> list_find P l = None.
  Proof. intros E. apply list_find_None, Forall_forall, E. Qed.
End Find.

Lemma alter_lookup {A} (f : A -> A) (l : list A) (i : nat) (x : A) :
  l !! i = Some x -> alter f i l = <[i := f x]> l.
Proof.
  revert i. induction l as [|y l IH]; intros [|i] E; try discriminate; simpl in *.
  - congruence.
  - f_equal. apply IH, E.
Qed.

Lemma alter_insert {A} (f : A -> A) (l : list A) (i : nat) (x : A) :
  alter f i (<[i := x]> l) = <[i := f x]> l.
Proof.
  revert i. induction l as [|y l IH]; intros [|i]; simpl; try reflexivity.
  f_equal. apply IH.
Qed.

Lemma insert_others {A} (l : list A) (i j : nat) (x : A) :
  j <> i -> <[i := x]> l !! j = l !! j.
Proof. intros E. apply list_lookup_insert_ne. congruence. Qed.

(** ** The loops *)

Lemma rejectExisting_spec (username : Line) (w : World) :
  rejectExisting username w =
    if nameTaken (text username) (users w)
    then (Returned, say (Println "用户名已存在！") w)
    else (Value tt, w).
Proof.
  unfold rejectExisting, bind, getUsers, nameTaken.
  generalize (users w) as us. induction us as [|u us IH]; simpl.
  - reflexivity.
  - unfold bind at 1. destruct (String.eqb (Username u) (text username)); simpl.
    + reflexivity.
    + exact IH.
Qed.

Lemma forEach_out {A} (f : A -> list Out) (body : A -> Cmd unit) (l : list A) :
  (forall x w, body x w = (Value tt, says (f x) w)) ->
  forall w, forEach l body w = (Value tt, says (concat (map f l)) w).
Proof.
  intros Hb. induction l as [|x l IH]; intros w; simpl.
  - unfold ret, says. rewrite app_nil_r. destruct w; reflexivity.
  - unfold bind. rewrite Hb, IH. unfold says; simpl. rewrite app_assoc. reflexivity.
Qed.

Lemma call_listRooms (w : World) :
  call listRooms w =
    (Value tt,
     says (match rooms w with
           | [] => [Println "当前无房间信息"]
           | _ => Println "----- 房间列表 -----" :: concat (map roomListing (rooms w))
           end) w).
Proof.
  unfold call, run, listRooms. f_equal.
  destruct w as [us [|r rs] inp outp answers]; [reflexivity|].
  unfold bind at 1, getRooms at 1. cbn [rooms length Nat.eqb when].
  unfold bind at 1, ret at 1. unfold bind at 1, println at 1, out at 1.
  rewrite (forEach_out roomListing) by reflexivity.
  unfold says; simpl. rewrite <- app_assoc. reflexivity.
Qed.

(** ** Saving *)

Lemma call_saveUsers (w : World) : call saveUsers w = (Value tt, usersSaved w).
Proof.
  unfold call, run, saveUsers, usersSaved, saveReport, afterSave, bind, getUsers.
  destruct w as [us rs inp outp answers]. cbn [users].
  destruct (MarshalIndent (Balance <$> us)) as [err|]; [reflexivity|].
  unfold WriteFile. cbn [disk fst snd].
  destruct (hd None answers) as [err|]; cbn; rewrite ?app_nil_r; reflexivity.
Qed.

Lemma call_saveRooms (w : World) : call saveRooms w = (Value tt, roomsSaved w).
Proof.
  unfold call, run, saveRooms, roomsSaved, saveReport, afterSave, bind, getRooms.
  destruct w as [us rs inp outp answers]. cbn [rooms].
  destruct (MarshalIndent (Price <$> rs)) as [err|]; [reflexivity|].
  unfold WriteFile. cbn [disk fst snd].
  destruct (hd None answers) as [err|]; cbn; rewrite ?app_nil_r; reflexivity.
Qed.

(** ** Symbolic execution *)

(** Unfold the commands and run them as far as the input allows. *)
Ltac crunch :=
  cbv beta iota zeta delta
    [run bind ret return_ out print println printf readLine getUsers getRooms
     setUsers setRooms modifyUser modifyRoom derefUser derefRoom when
     usersSaved roomsSaved input skip consume say says
     same_stores aborted reported];
  cbn [users rooms stdin stdout disk fst snd negb andb
       String.eqb Ascii.eqb Bool.eqb
       UserID Username Password Role CustomerType Balance
       set_Username set_Password set_CustomerType set_Balance
       RoomID RoomType Price Total Available
       set_RoomType set_Price set_Total set_Available].

Ltac crunch_in H :=
  cbv beta iota zeta delta [input skip] in H;
  cbn [users rooms stdin stdout disk] in H.

Ltac crunch_all :=
  repeat match goal with
         | H : context [input _ _] |- _ => crunch_in H
         | H : context [users (mkWorld _ _ _ _ _)] |- _ => crunch_in H
         | H : context [rooms (mkWorld _ _ _ _ _)] |- _ => crunch_in H
         end.

(** A lookup through a pointer, possibly after writes through it. *)
Ltac look :=
  match goal with
  | H : ?l !! ?i = Some _ |- context [alter _ ?i _ !! ?i] =>
      rewrite list_lookup_alter_eq
  | H : ?l !! ?i = _ |- context [?l !! ?i] => rewrite H
  end; cbn [fmap option_fmap option_map].

(** Decide the next test: by a hypothesis, or by cases. *)
Ltac known :=
  match goal with
  | H : ?x = _ |- context [?x] => rewrite H
  end.

Ltac fork :=
  match goal with
  | |- context [String.eqb ?a ?b] => destruct (String.eqb a b) eqn:?
  | |- context [match ParseFloat ?l with _ => _ end] => destruct (ParseFloat l) eqn:?
  | |- context [match Atoi ?l with _ => _ end] => destruct (Atoi l) eqn:?
  end.

(** A call of one of the saves. *)
Ltac save := first [ rewrite call_saveUsers | rewrite call_saveRooms ].

Ltac execute := crunch; repeat first [ look; crunch | known; crunch | save; crunch ].
Ltac explore :=
  crunch; repeat first [ look; crunch | known; crunch | save; crunch | fork; crunch ].

Ltac start w :=
  destruct w as [us rs inp outp answers]; crunch_all.

(** Writes through a pointer, collected into one. *)
Ltac settle H :=
  rewrite ?(fun f => alter_lookup f _ _ _ H), ?alter_insert;
  first [ reflexivity | symmetry; apply list_insert_id; exact H ].

Ltac gave_up := repeat split; apply last_snoc.

Lemma printed_last (o : Out) (l : list Out) : o ∈ l ++ [o].
Proof. apply elem_of_app. right. apply list_elem_of_singleton. reflexivity. Qed.

Lemma printed_before (o o' : Out) (l : list Out) : o ∈ l -> o ∈ l ++ [o'].
Proof. intros H. apply elem_of_app. left. exact H. Qed.


Lemma printed_earlier (o : Out) (l l' : list Out) : o ∈ l -> o ∈ l ++ l'.
Proof. intros H. apply elem_of_app. left. exact H. Qed.

Ltac printed :=
  repeat first [ apply printed_last | apply printed_before | apply printed_earlier ].

(** ** Booking: every way [bookRoom] can end *)

Ltac book :=
  unfold bookRoom; execute;
  rewrite call_listRooms; execute.

Section Booking.
Variable customer : nat.
Variable w : World.

Lemma bookRoom_no_rooms :
    rooms w = [] -> aborted "当前无可预订的房间" w (run (bookRoom customer) w).
  Proof.
    intros E. start w. subst rs. unfold bookRoom. execute. gave_up.
  Qed.

Lemma bookRoom_bad_id :
    rooms w <> [] -> Atoi (text (input 0 w)) = None ->
    aborted "无效的房间ID" w (run (bookRoom customer) w).
  Proof.
    intros E HA. apply nonempty_length in E. start w. book. gave_up.
  Qed.

Lemma bookRoom_missing (id : Z) :
    rooms w <> [] -> Atoi (text (input 0 w)) = Some id ->
    list_find (fun r => RoomID r = id) (rooms w) = None ->
    aborted "未找到该房间" w (run (bookRoom customer) w).
  Proof.
    intros E HA HF. apply nonempty_length in E. start w. book. gave_up.
  Qed.

Section Found.
Variables (id : Z) (i : nat) (room : Room).
Hypothesis HA : Atoi (text (input 0 w)) = Some id.
Hypothesis HF : list_find (fun r => RoomID r = id) (rooms w) = Some (i, room).

Lemma bookRoom_bad_quantity :
      (forall q, Atoi (text (input 1 w)) = Some q -> q <= 0) ->
      aborted "无效的数量" w (run (bookRoom customer) w).
    Proof.
      intros Hq.
      pose proof (found_lookup _ _ _ _ HF) as Hr.
      pose proof (nonempty_length _ (found_nonempty _ _ _ _ HF)) as Hne.
      start w. book.
      destruct (Atoi (text (hd emptyLine (tail inp)))) as [q|] eqn:E; crunch.
      - specialize (Hq q eq_refl). apply Z.leb_le in Hq. execute. gave_up.
      - gave_up.
    Qed.

Section Quantity.
Variable q : Z.
Hypothesis HQ : Atoi (text (input 1 w)) = Some q.
Hypothesis Hpos : 0 < q.

Lemma bookRoom_too_many :
        Available room < q ->
        aborted "预订数量超过剩余房间数" w (run (bookRoom customer) w).
      Proof.
        intros Hav.
        pose proof (found_lookup _ _ _ _ HF) as Hr.
        pose proof (nonempty_length _ (found_nonempty _ _ _ _ HF)) as Hne.
        apply Z.leb_gt in Hpos. apply Z.gtb_lt in Hav.
        start w. book. gave_up.
      Qed.

Hypothesis Hav : q <= Available room.

Lemma bookRoom_dangling :
        users w !! customer = None -> same_stores w (run (bookRoom customer) w).
      Proof.
        intros Hc.
        pose proof (found_lookup _ _ _ _ HF) as Hr.
        pose proof (nonempty_length _ (found_nonempty _ _ _ _ HF)) as Hne.
        apply Z.leb_gt in Hpos.
        assert (Hle : (q >? Available room) = false)
          by (rewrite Z.gtb_ltb; apply Z.ltb_ge; exact Hav).
        start w. book. split; reflexivity.
      Qed.

Variable c : User.
Hypothesis Hc : users w !! customer = Some c.

Lemma bookRoom_no_funds :
        (Balance c <? Price room * float64_of_int q)%float = true ->
        aborted "余额不足，无法预订" w (run (bookRoom customer) w).
      Proof.
        intros Hb.
        pose proof (found_lookup _ _ _ _ HF) as Hr.
        pose proof (nonempty_length _ (found_nonempty _ _ _ _ HF)) as Hne.
        apply Z.leb_gt in Hpos.
        assert (Hle : (q >? Available room) = false)
          by (rewrite Z.gtb_ltb; apply Z.ltb_ge; exact Hav).
        start w. book. gave_up.
      Qed.

Lemma bookRoom_booked :
        (Balance c <? Price room * float64_of_int q)%float = false ->
        users (run (bookRoom customer) w) =
          <[customer := set_Balance (Balance c - Price room * float64_of_int q)%float c]>
            (users w) /\
        rooms (run (bookRoom customer) w) =
          <[i := set_Available (wrap64 (Available room - q)) room]> (rooms w).
      Proof.
        intros Hb.
        pose proof (found_lookup _ _ _ _ HF) as Hr.
        pose proof (nonempty_length _ (found_nonempty _ _ _ _ HF)) as Hne.
        apply Z.leb_gt in Hpos.
        assert (Hle : (q >? Available room) = false)
          by (rewrite Z.gtb_ltb; apply Z.ltb_ge; exact Hav).
        start w. book. split.
        - settle Hc.
        - settle Hr.
      Qed.
End Quantity.
End Found.
End Booking.

(** Whatever is typed, a booking either leaves the stores alone or debits
    the customer and takes the rooms out of one record. *)
Lemma bookRoom_outcome (customer : nat) (w : World) :
  same_stores w (run (bookRoom customer) w) \/
  exists id i room q c,
    Atoi (text (input 0 w)) = Some id /\
    list_find (fun r => RoomID r = id) (rooms w) = Some (i, room) /\
    Atoi (text (input 1 w)) = Some q /\ 0 < q <= Available room /\
    users w !! customer = Some c /\
    (Balance c <? Price room * float64_of_int q)%float = false /\
    users (run (bookRoom customer) w) =
      <[customer := set_Balance (Balance c - Price room * float64_of_int q)%float c]>
        (users w) /\
    rooms (run (bookRoom customer) w) =
      <[i := set_Available (wrap64 (Available room - q)) room]> (rooms w).
Proof.
  destruct (nil_or_not (rooms w)) as [Hr|Hne].
  { left. apply (bookRoom_no_rooms customer w Hr). }
  destruct (Atoi (text (input 0 w))) as [id|] eqn:HA.
  2: { left. apply (bookRoom_bad_id customer w Hne HA). }
  destruct (list_find (fun r => RoomID r = id) (rooms w)) as [[i room]|] eqn:HF.
  2: { left. apply (bookRoom_missing customer w id Hne HA HF). }
  destruct (Atoi (text (input 1 w))) as [q|] eqn:HQ.
  2: { left. apply (bookRoom_bad_quantity customer w id i room HA HF).
       intros q' Hq'. rewrite HQ in Hq'. discriminate. }
  destruct (Z_le_gt_dec q 0) as [Hle|Hpos].
  { left. apply (bookRoom_bad_quantity customer w id i room HA HF).
    intros q' Hq'. rewrite HQ in Hq'. injection Hq' as <-. exact Hle. }
  destruct (Z_lt_le_dec (Available room) q) as [Hlt|Hav].
  { left. apply (bookRoom_too_many customer w id i room HA HF q HQ); lia. }
  destruct (users w !! customer) as [c|] eqn:Hc.
  2: { left. apply (bookRoom_dangling customer w id i room HA HF q HQ); [lia|exact Hav|exact Hc]. }
  destruct (Balance c <? Price room * float64_of_int q)%float eqn:Hb.
  { left. apply (bookRoom_no_funds customer w id i room HA HF q HQ ltac:(lia) Hav c Hc Hb). }
  right. exists id, i, room, q, c.
  repeat (split; [first [reflexivity | assumption | lia]|]).
  apply (bookRoom_booked customer w id i room HA HF q HQ ltac:(lia) Hav c Hc Hb).
Qed.

(** ** Commands that leave a store alone *)

Lemma preserves_bind {A B X} (f : World -> X) (m : Cmd A) (k : A -> Cmd B) :
  preserves f m -> (forall a, preserves f (k a)) -> preserves f (bind m k).
Proof.
  intros Hm Hk w. unfold bind. specialize (Hm w).
  destruct (m w) as [[a|] w']; simpl in *.
  - rewrite Hk. exact Hm.
  - exact Hm.
Qed.

Lemma preserves_when {X} (f : World -> X) (b : bool) (m : Cmd unit) :
  preserves f m -> preserves f (when b m).
Proof. intros Hm. destruct b; [exact Hm | intros w; reflexivity]. Qed.

Lemma preserves_call {X} (f : World -> X) (m : Cmd unit) :
  preserves f m -> preserves f (call m).
Proof. intros Hm w. apply Hm. Qed.

Lemma preserves_forEach {A X} (f : World -> X) (l : list A) (body : A -> Cmd unit) :
  (forall x, preserves f (body x)) -> preserves f (forEach l body).
Proof.
  intros Hb. induction l as [|x l IH]; simpl.
  - intros w; reflexivity.
  - apply preserves_bind; [apply Hb | intros _; exact IH].
Qed.

Ltac primitive :=
  let w := fresh "w" in
  first
    [ intros w; reflexivity
    | intros w; unfold derefUser; destruct (users w !! _); reflexivity
    | intros w; unfold derefRoom; destruct (rooms w !! _); reflexivity ].

Ltac frame :=
  repeat
    match goal with
    | |- preserves _ (bind _ _) => apply preserves_bind; [|intros ?]
    | |- preserves _ (when _ _) => apply preserves_when
    | |- preserves _ (call _) => apply preserves_call
    | |- preserves _ saveUsers => unfold saveUsers
    | |- preserves _ saveRooms => unfold saveRooms
    | |- preserves _ (forEach _ _) => apply preserves_forEach; intros ?
    | |- preserves _ (match ?x with _ => _ end) => destruct x
    | |- preserves _ _ => primitive
    end.

Lemma login_keeps_users : preserves users login.
Proof. unfold login. frame. Qed.
Lemma login_keeps_rooms : preserves rooms login.
Proof. unfold login. frame. Qed.
Lemma listUsers_keeps_users : preserves users listUsers.
Proof. unfold listUsers. frame. Qed.
Lemma listUsers_keeps_rooms : preserves rooms listUsers.
Proof. unfold listUsers. frame. Qed.
Lemma listRooms_keeps_users : preserves users listRooms.
Proof. unfold listRooms. frame. Qed.
Lemma listRooms_keeps_rooms : preserves rooms listRooms.
Proof. unfold listRooms. frame. Qed.
Lemma registerCustomer_keeps_rooms : preserves rooms registerCustomer.
Proof. unfold registerCustomer, rejectExisting. frame. Qed.
Lemma addUser_keeps_rooms : preserves rooms addUser.
Proof. unfold addUser, rejectExisting. frame. Qed.
Lemma updateUser_keeps_rooms : preserves rooms updateUser.
Proof. unfold updateUser. frame. Qed.
Lemma deleteUser_keeps_rooms : preserves rooms deleteUser.
Proof. unfold deleteUser. frame. Qed.
Lemma addRoom_keeps_users : preserves users addRoom.
Proof. unfold addRoom. frame. Qed.
Lemma updateRoom_keeps_users : preserves users updateRoom.
Proof. unfold updateRoom. frame. Qed.
Lemma deleteRoom_keeps_users : preserves users deleteRoom.
Proof. unfold deleteRoom. frame. Qed.

(** ** Creating users *)

Ltac enter := rewrite rejectExisting_spec; execute.

Section Creating.
Variable w : World.

Lemma registerCustomer_existing :
    nameTaken (text (input 0 w)) (users w) = true ->
    aborted "用户名已存在！" w (run registerCustomer w).
  Proof.
    intros E. start w. unfold registerCustomer. execute. enter. gave_up.
  Qed.

Lemma registerCustomer_new :
    nameTaken (text (input 0 w)) (users w) = false ->
    users (run registerCustomer w) =
      users w ++
      [mkUser (getNextUserID (users w)) (text (input 0 w)) (text (input 1 w))
              "customer"
              (if String.eqb (text (input 2 w)) "1" then "member" else "regular")
              1000%float].
  Proof.
    intros E. start w. unfold registerCustomer. execute. enter. reflexivity.
  Qed.

Lemma addUser_existing :
    nameTaken (text (input 0 w)) (users w) = true ->
    aborted "用户名已存在！" w (run addUser w).
  Proof.
    intros E. start w. unfold addUser. execute. enter. gave_up.
  Qed.

Lemma addUser_admin :
    nameTaken (text (input 0 w)) (users w) = false ->
    text (input 2 w) = "1" ->
    users (run addUser w) =
      users w ++
      [mkUser (getNextUserID (users w)) (text (input 0 w)) (text (input 1 w))
              "admin" "" 0%float].
  Proof.
    intros E Hrole. start w. unfold addUser. execute. enter. reflexivity.
  Qed.

Lemma addUser_customer :
    nameTaken (text (input 0 w)) (users w) = false ->
    text (input 2 w) = "2" ->
    users (run addUser w) =
      users w ++
      [mkUser (getNextUserID (users w)) (text (input 0 w)) (text (input 1 w))
              "customer"
              (if String.eqb (text (input 3 w)) "1" then "member" else "regular")
              1000%float].
  Proof.
    intros E Hrole. start w. unfold addUser. execute. enter. reflexivity.
  Qed.

Lemma addUser_bad_role :
    nameTaken (text (input 0 w)) (users w) = false ->
    text (input 2 w) <> "1" -> text (input 2 w) <> "2" ->
    aborted "无效的角色选项" w (run addUser w).
  Proof.
    intros E H1 H2. apply String.eqb_neq in H1, H2.
    start w. unfold addUser. execute. enter. gave_up.
  Qed.
End Creating.

(** ** Updating and deleting users *)

Section Users.
Variable w : World.

Lemma updateUser_bad_id :
    Atoi (text (input 0 w)) = None -> aborted "无效的ID" w (run updateUser w).
  Proof. intros HA. start w. unfold updateUser. execute. gave_up. Qed.

Lemma deleteUser_bad_id :
    Atoi (text (input 0 w)) = None -> aborted "无效的ID" w (run deleteUser w).
  Proof. intros HA. start w. unfold deleteUser. execute. gave_up. Qed.

Section Chosen.
Variable id : Z.
Hypothesis HA : Atoi (text (input 0 w)) = Some id.

Lemma updateUser_missing :
      list_find (fun u => UserID u = id) (users w) = None ->
      aborted "未找到该用户" w (run updateUser w).
    Proof. intros HF. start w. unfold updateUser. execute. gave_up. Qed.

Lemma deleteUser_missing :
      list_find (fun u => UserID u = id) (users w) = None ->
      aborted "未找到该用户" w (run deleteUser w).
    Proof. intros HF. start w. unfold deleteUser. execute. gave_up. Qed.

Variables (i : nat) (u : User).
Hypothesis HF : list_find (fun u => UserID u = id) (users w) = Some (i, u).

Lemma updateUser_found :
      users (run updateUser w) = <[i := updatedUser w u]> (users w).
    Proof.
      pose proof (found_lookup _ _ _ _ HF) as Hu.
      start w. unfold updateUser, updatedUser. explore.
      all: settle Hu.
    Qed.

    (** Once the user is found the operation runs to its last line. *)
Lemma updateUser_done :
      reported (Println "用户信息更新成功") (run updateUser w).
    Proof.
      pose proof (found_lookup _ _ _ _ HF) as Hu.
      start w. unfold updateUser. explore.
      all: apply last_snoc.
    Qed.

    (** A balance that does not parse is reported. *)
Lemma updateUser_bad_balance :
      Role u = "customer" -> text (input 4 w) <> "" ->
      ParseFloat (input 4 w) = None ->
      Println "无效的余额输入" ∈ stdout (run updateUser w).
    Proof.
      intros Hrole Hne HP. apply String.eqb_neq in Hne.
      pose proof (found_lookup _ _ _ _ HF) as Hu.
      start w. unfold updateUser. explore.
      all: printed.
    Qed.

Lemma deleteUser_found :
      users (run deleteUser w) = users w \/
      users (run deleteUser w) = delete i (users w).
    Proof.
      start w. unfold deleteUser. explore.
      all: first [ left; reflexivity | right; symmetry; apply delete_take_drop ].
    Qed.
End Chosen.
End Users.

(** ** Adding, updating and deleting rooms *)

Section Rooms.
Variable w : World.

Lemma addRoom_bad_price :
    ParseFloat (input 1 w) = None -> aborted "无效的价格输入" w (run addRoom w).
  Proof. intros HP. start w. unfold addRoom. execute. gave_up. Qed.

Lemma addRoom_bad_total (price : float) :
    ParseFloat (input 1 w) = Some price -> Atoi (text (input 2 w)) = None ->
    aborted "无效的房间数量" w (run addRoom w).
  Proof. intros HP HA. start w. unfold addRoom. execute. gave_up. Qed.

Lemma addRoom_added (price : float) (total : Z) :
    ParseFloat (input 1 w) = Some price -> Atoi (text (input 2 w)) = Some total ->
    rooms (run addRoom w) =
      rooms w ++
      [mkRoom (getNextRoomID (rooms w)) (text (input 0 w)) price total total].
  Proof. intros HP HA. start w. unfold addRoom. execute. reflexivity. Qed.

Lemma updateRoom_bad_id :
    Atoi (text (input 0 w)) = None -> aborted "无效的ID" w (run updateRoom w).
  Proof. intros HA. start w. unfold updateRoom. execute. gave_up. Qed.

Lemma deleteRoom_bad_id :
    Atoi (text (input 0 w)) = None -> aborted "无效的ID" w (run deleteRoom w).
  Proof. intros HA. start w. unfold deleteRoom. execute. gave_up. Qed.

Section Chosen.
Variable id : Z.
Hypothesis HA : Atoi (text (input 0 w)) = Some id.

Lemma updateRoom_missing :
      list_find (fun r => RoomID r = id) (rooms w) = None ->
      aborted "未找到该房间" w (run updateRoom w).
    Proof. intros HF. start w. unfold updateRoom. execute. gave_up. Qed.

Lemma deleteRoom_missing :
      list_find (fun r => RoomID r = id) (rooms w) = None ->
      aborted "未找到该房间" w (run deleteRoom w).
    Proof. intros HF. start w. unfold deleteRoom. execute. gave_up. Qed.

Variables (i : nat) (room : Room).
Hypothesis HF : list_find (fun r => RoomID r = id) (rooms w) = Some (i, room).

Lemma updateRoom_found :
      rooms (run updateRoom w) = <[i := updatedRoom w room]> (rooms w).
    Proof.
      pose proof (found_lookup _ _ _ _ HF) as Hr.
      start w. unfold updateRoom, updatedRoom. explore.
      all: settle Hr.
    Qed.

Lemma updateRoom_done :
      reported (Println "房间信息更新成功") (run updateRoom w).
    Proof.
      pose proof (found_lookup _ _ _ _ HF) as Hr.
      start w. unfold updateRoom. explore.
      all: apply last_snoc.
    Qed.

    (** A price or a total that does not parse is reported. *)
Lemma updateRoom_bad_price :
      text (input 2 w) <> "" -> ParseFloat (input 2 w) = None ->
      Println "无效的价格输入" ∈ stdout (run updateRoom w).
    Proof.
      intros Hne HP. apply String.eqb_neq in Hne.
      pose proof (found_lookup _ _ _ _ HF) as Hr.
      start w. unfold updateRoom. explore.
      all: printed.
    Qed.

Lemma updateRoom_bad_total :
      text (input 3 w) <> "" -> Atoi (text (input 3 w)) = None ->
      Println "无效的数量输入" ∈ stdout (run updateRoom w).
    Proof.
      intros Hne HP. apply String.eqb_neq in Hne.
      pose proof (found_lookup _ _ _ _ HF) as Hr.
      start w. unfold updateRoom. explore.
      all: printed.
    Qed.

Lemma deleteRoom_found :
      rooms (run deleteRoom w) = rooms w \/
      rooms (run deleteRoom w) = delete i (rooms w).
    Proof.
      start w. unfold deleteRoom. explore.
      all: first [ left; reflexivity | right; symmetry; apply delete_take_drop ].
    Qed.
End Chosen.
End Rooms.

(** ** Binary64 arithmetic on whole numbers *)

(** The value of a finite float, scaled by any power of two that makes
    both sides whole. *)
Lemma finite_scaled (s : bool) (m : positive) (e z : Z) :
  SFrepresents (S754_finite s m e) z <->
  forall u, 0 <= u -> 0 <= e + u -> cond_Zopp s (Z.pos m) * 2 ^ (e + u) = z * 2 ^ u.
Proof.
  cbn [SFrepresents]. split.
  - intros H u Hu Heu. destruct (Z.le_gt_cases 0 e) as [He|He].
    + rewrite Z.max_r in H by lia. rewrite Z.max_l, Z.mul_1_r in H by lia.
      rewrite Z.pow_add_r by lia. rewrite <- H. ring.
    + rewrite Z.max_l, Z.mul_1_r in H by lia. rewrite Z.max_r in H by lia.
      rewrite H. replace u with (- e + (e + u)) at 2 by lia.
      rewrite (Z.pow_add_r 2 (- e)) by lia. ring.
  - intros H. destruct (Z.le_gt_cases 0 e) as [He|He].
    + rewrite (Z.max_r 0 e), (Z.max_l 0 (- e)) by lia.
      specialize (H 0 ltac:(lia) ltac:(lia)). rewrite Z.add_0_r in H. exact H.
    + rewrite (Z.max_l 0 e), (Z.max_r 0 (- e)) by lia.
      specialize (H (- e) ltac:(lia) ltac:(lia)).
      replace (e + - e) with 0 in H by lia. exact H.
Qed.

Lemma digits2_size (m : positive) : digits2_pos m = Pos.size m.
Proof. induction m as [m IH|m IH|]; cbn; rewrite ?IH; reflexivity. Qed.

(** [digits2_pos m] is the number of binary digits of [m]. *)
Lemma digits2_bounds (m : positive) :
  2 ^ (Z.pos (digits2_pos m) - 1) <= Z.pos m < 2 ^ Z.pos (digits2_pos m).
Proof.
  rewrite digits2_size. split.
  - pose proof (Pos.size_le m) as H.
    apply Pos2Z.pos_le_pos in H. rewrite Pos2Z.inj_pow in H.
    change (Z.pos m~0) with (2 * Z.pos m) in H.
    assert (2 ^ Z.pos (Pos.size m) = 2 * 2 ^ (Z.pos (Pos.size m) - 1)) as E.
    { rewrite <- (Z.pow_succ_r 2) by lia. f_equal. lia. }
    lia.
  - pose proof (Pos.size_gt m) as H.
    apply Pos2Z.pos_lt_pos in H. rewrite Pos2Z.inj_pow in H. exact H.
Qed.

Lemma shifted_value (m d : positive) :
  Z.pos (Pos.iter xO m d) = Z.pos m * 2 ^ Z.pos d.
Proof.
  change (Pos.iter xO m d) with (shift_pos d m).
  rewrite shift_pos_correct, Z.pow_pos_fold. ring.
Qed.

Lemma shifted_digits (m d : positive) :
  Z.pos (digits2_pos (Pos.iter xO m d)) = Z.pos (digits2_pos m) + Z.pos d.
Proof.
  revert m. induction d as [|d IH] using Pos.peano_ind; intros m.
  - cbn [Pos.iter digits2_pos]. lia.
  - rewrite Pos.iter_succ. cbn [digits2_pos]. rewrite Pos2Z.inj_succ, IH. lia.
Qed.

Lemma iter_pos_nat {A} (f : A -> A) (p : positive) (x : A) :
  SpecFloat.iter_pos f p x = Nat.iter (Pos.to_nat p) f x.
Proof.
  revert x. induction p as [p IH|p IH|]; intros x; cbn [SpecFloat.iter_pos].
  - rewrite !IH, Pos2Nat.inj_xI, <- Nat.iter_succ_r.
    replace (S (2 * Pos.to_nat p))%nat with (Pos.to_nat p + S (Pos.to_nat p))%nat by lia.
    rewrite Nat.iter_add. rewrite Nat.iter_succ_r. rewrite <- Nat.iter_succ_r.
    reflexivity.
  - rewrite !IH, Pos2Nat.inj_xO.
    replace (2 * Pos.to_nat p)%nat with (Pos.to_nat p + Pos.to_nat p)%nat by lia.
    rewrite Nat.iter_add. reflexivity.
  - reflexivity.
Qed.

(** Shifting out zeros is exact. *)
Lemma shr_zeros (n : nat) (k : positive) :
  Nat.iter n shr_1 (Build_shr_record (Z.pos (Nat.iter n xO k)) false false) =
    Build_shr_record (Z.pos k) false false.
Proof.
  induction n as [|n IH]; [reflexivity|].
  rewrite Nat.iter_succ_r. cbn [Nat.iter shr_1 orb]. exact IH.
Qed.

Lemma shr_exact (k p : positive) (e : Z) :
  shr (Build_shr_record (Z.pos (Pos.iter xO k p)) false false) e (Z.pos p) =
    (Build_shr_record (Z.pos k) false false, e + Z.pos p).
Proof.
  cbn [shr]. rewrite iter_pos_nat, Pos2Nat.inj_iter.
  change (nat_rect (fun _ => positive) k (fun _ => xO) (Pos.to_nat p))
    with (Nat.iter (Pos.to_nat p) xO k).
  rewrite shr_zeros. reflexivity.
Qed.

Lemma shr_fexp_none (m : positive) (e : Z) :
  fexp prec emax (Z.pos (digits2_pos m) + e) <= e ->
  shr_fexp prec emax (Z.pos m) e loc_Exact =
    (Build_shr_record (Z.pos m) false false, e).
Proof.
  intros H. unfold shr_fexp, shr. cbn [Zdigits2 shr_record_of_loc].
  destruct (fexp prec emax (Z.pos (digits2_pos m) + e) - e) eqn:E;
    first [reflexivity | lia].
Qed.

Lemma shr_fexp_some (k p : positive) (e : Z) :
  fexp prec emax (Z.pos (digits2_pos (Pos.iter xO k p)) + e) = e + Z.pos p ->
  shr_fexp prec emax (Z.pos (Pos.iter xO k p)) e loc_Exact =
    (Build_shr_record (Z.pos k) false false, e + Z.pos p).
Proof.
  intros H. unfold shr_fexp. cbn [Zdigits2 shr_record_of_loc]. rewrite H.
  replace (e + Z.pos p - e) with (Z.pos p) by lia. apply shr_exact.
Qed.

(** A mantissa that needs no shift is kept. *)
Lemma round_aux_kept (s : bool) (m : positive) (e : Z) :
  fexp prec emax (Z.pos (digits2_pos m) + e) <= e -> e <= emax - prec ->
  binary_round_aux prec emax s (Z.pos m) e loc_Exact = S754_finite s m e.
Proof.
  intros H He. unfold binary_round_aux. rewrite (shr_fexp_none m e H).
  cbn [shr_m loc_of_shr_record round_nearest_even].
  rewrite (shr_fexp_none m e H). cbn [shr_m].
  apply Z.leb_le in He. rewrite He. reflexivity.
Qed.

(** A mantissa that ends in the zeros to shift out loses only them. *)
Lemma round_aux_shifted (s : bool) (k p : positive) (e : Z) :
  fexp prec emax (Z.pos (digits2_pos (Pos.iter xO k p)) + e) = e + Z.pos p ->
  e + Z.pos p <= emax - prec ->
  binary_round_aux prec emax s (Z.pos (Pos.iter xO k p)) e loc_Exact =
    S754_finite s k (e + Z.pos p).
Proof.
  intros H He. unfold binary_round_aux. rewrite (shr_fexp_some k p e H).
  cbn [shr_m loc_of_shr_record round_nearest_even].
  rewrite shr_fexp_none.
  - cbn [shr_m]. apply Z.leb_le in He. rewrite He. reflexivity.
  - rewrite shifted_digits in H.
    replace (Z.pos (digits2_pos k) + (e + Z.pos p))
      with (Z.pos (digits2_pos k) + Z.pos p + e) by lia.
    lia.
Qed.

(** Where the digits of a whole number below [2^53] end. *)
Lemma whole_digits (m : positive) (e n : Z) :
  0 < n < 2 ^ 53 ->
  SFrepresents (S754_finite false m e) n ->
  1 <= Z.pos (digits2_pos m) + e <= 53.
Proof.
  intros [Hn0 Hn] H. rewrite finite_scaled in H. cbn [cond_Zopp] in H.
  pose proof (digits2_bounds m) as [Hlo Hhi].
  assert (0 < Z.pos (digits2_pos m)) as Hd by lia.
  set (d := Z.pos (digits2_pos m)) in *. clearbody d.
  set (u := Z.max 0 (- e)).
  specialize (H u ltac:(lia) ltac:(lia)).
  assert (0 < 2 ^ (e + u)) as Hp by (apply Z.pow_pos_nonneg; lia).
  assert (0 < 2 ^ u) as Hu by (apply Z.pow_pos_nonneg; lia).
  split.
  - assert (2 ^ u < 2 ^ (d + (e + u))) as Hlt.
    { rewrite Z.pow_add_r by lia.
      assert (n * 2 ^ u < 2 ^ d * 2 ^ (e + u))
        by (rewrite <- H; apply Z.mul_lt_mono_pos_r; lia).
      nia. }
    apply Z.pow_lt_mono_r_iff in Hlt; lia.
  - assert (2 ^ (d - 1 + (e + u)) < 2 ^ (53 + u)) as Hlt.
    { rewrite (Z.pow_add_r 2 (d - 1)), (Z.pow_add_r 2 53) by lia.
      assert (2 ^ (d - 1) * 2 ^ (e + u) <= Z.pos m * 2 ^ (e + u))
        by (apply Z.mul_le_mono_nonneg_r; lia).
      assert (n * 2 ^ u < 2 ^ 53 * 2 ^ u)
        by (apply Z.mul_lt_mono_pos_r; lia).
      lia. }
    apply Z.pow_lt_mono_r_iff in Hlt; lia.
Qed.

Lemma fexp_whole (D : Z) : 1 <= D <= 53 -> fexp prec emax D = D - 53.
Proof. intros H. unfold fexp, emin, prec, emax. lia. Qed.

(** Rounding a whole number below [2^53] gives that number. *)
Lemma round_aux_whole (s : bool) (m : positive) (e n : Z) :
  0 < n < 2 ^ 53 ->
  SFrepresents (S754_finite false m e) n ->
  exists M E,
    binary_round_aux prec emax s (Z.pos m) e loc_Exact = S754_finite s M E /\
    SFrepresents (S754_finite false M E) n /\
    E = Z.max e (Z.pos (digits2_pos m) + e - 53) /\
    Z.pos (digits2_pos M) + E = Z.pos (digits2_pos m) + e.
Proof.
  intros Hn H. pose proof (whole_digits m e n Hn H) as HD.
  pose proof (fexp_whole _ HD) as Hf.
  pose proof (digits2_bounds m) as Hm.
  destruct (Z.le_gt_cases (Z.pos (digits2_pos m) + e - 53) e) as [Hle|Hgt].
  - exists m, e. split; [|split; [exact H|split; lia]].
    apply round_aux_kept; [lia | unfold emax, prec; lia].
  - set (t := Z.pos (digits2_pos m) + e - 53) in *.
    assert (exists p, t - e = Z.pos p) as [p Hp]
      by (destruct (t - e) as [|p|p] eqn:E; [lia | eauto | lia]).
    assert (exists k, Z.pos k = n * 2 ^ (- t)) as [k Hk].
    { assert (0 < n * 2 ^ (- t)) as Hpos
        by (apply Z.mul_pos_pos; [lia | apply Z.pow_pos_nonneg; lia]).
      destruct (n * 2 ^ (- t)) as [|k|k]; [lia | eauto | lia]. }
    assert (m = Pos.iter xO k p) as ->.
    { apply Pos2Z.inj. rewrite shifted_value, Hk, <- Hp.
      rewrite finite_scaled in H. cbn [cond_Zopp] in H.
      specialize (H (- e) ltac:(lia) ltac:(lia)).
      replace (e + - e) with 0 in H by lia. rewrite Z.mul_1_r in H. rewrite H.
      replace (- e) with (- t + (t - e)) by lia.
      rewrite Z.pow_add_r by lia. ring. }
    exists k, (e + Z.pos p). split; [|split; [|split]].
    + apply round_aux_shifted; [lia | unfold emax, prec; lia].
    + cbn [SFrepresents cond_Zopp].
      rewrite (Z.max_l 0 (e + Z.pos p)), (Z.max_r 0 (- (e + Z.pos p))) by lia.
      rewrite Z.mul_1_r, Hk. f_equal. f_equal. lia.
    + lia.
    + rewrite shifted_digits. lia.
Qed.

Lemma finite_scaled_at (s : bool) (m : positive) (e z u : Z) :
  0 <= u -> 0 <= e + u ->
  cond_Zopp s (Z.pos m) * 2 ^ (e + u) = z * 2 ^ u ->
  SFrepresents (S754_finite s m e) z.
Proof.
  intros Hu Heu H. cbn [SFrepresents].
  destruct (Z.le_gt_cases 0 e) as [He|He].
  - rewrite (Z.max_r 0 e), (Z.max_l 0 (- e)), Z.mul_1_r by lia.
    rewrite Z.pow_add_r, Z.mul_assoc in H by lia.
    apply Z.mul_reg_r in H; [exact H|].
    apply Z.pow_nonzero; lia.
  - rewrite (Z.max_l 0 e), (Z.max_r 0 (- e)), Z.mul_1_r by lia.
    replace u with (- e + (e + u)) in H at 2 by lia.
    rewrite (Z.pow_add_r 2 (- e)), Z.mul_assoc in H by lia.
    apply Z.mul_reg_r in H; [exact H|].
    apply Z.pow_nonzero; lia.
Qed.

(** A finite float is not zero, and its sign is the sign of its value. *)
Lemma finite_abs (s : bool) (m : positive) (e z : Z) :
  SFrepresents (S754_finite s m e) z <->
  exists n, 0 < n /\ z = cond_Zopp s n /\ SFrepresents (S754_finite false m e) n.
Proof.
  cbn [SFrepresents].
  assert (0 < 2 ^ Z.max 0 e) as H1 by (apply Z.pow_pos_nonneg; lia).
  assert (0 < 2 ^ Z.max 0 (- e)) as H2 by (apply Z.pow_pos_nonneg; lia).
  split.
  - intros H. exists (cond_Zopp s z). destruct s; cbn [cond_Zopp] in *.
    + repeat split; [nia | lia | nia].
    + repeat split; [nia | exact H].
  - intros (n & Hn & -> & H). destruct s; cbn [cond_Zopp] in *; [|exact H].
    rewrite !Z.mul_opp_l, H. reflexivity.
Qed.

Lemma signed_whole (s : bool) (m : positive) (e n : Z) :
  SFrepresents (S754_finite false m e) n ->
  SFrepresents (S754_finite s m e) (cond_Zopp s n).
Proof.
  cbn [SFrepresents]. intros H. destruct s; cbn [cond_Zopp] in *; [|exact H].
  rewrite !Z.mul_opp_l, H. reflexivity.
Qed.

Lemma shl_align_value (m : positive) (e t u : Z) :
  0 <= t + u -> 0 <= e + u ->
  Z.pos (shl_align m e t).1 * 2 ^ ((shl_align m e t).2 + u) = Z.pos m * 2 ^ (e + u).
Proof.
  intros Ht He. unfold shl_align. destruct (t - e) as [|d|d] eqn:E; cbn [fst snd];
    try reflexivity.
  assert (Z.neg d = - Z.pos d) as Hd by reflexivity.
  rewrite shifted_value. replace (e + u) with (Z.pos d + (t + u)) by lia.
  rewrite (Z.pow_add_r 2 (Z.pos d) (t + u)) by lia. ring.
Qed.

Lemma shl_align_exponent (m : positive) (e t : Z) :
  (shl_align m e t).2 = Z.min e t /\
  Z.pos (digits2_pos (shl_align m e t).1) + (shl_align m e t).2 =
    Z.pos (digits2_pos m) + e.
Proof.
  unfold shl_align. destruct (t - e) as [|d|d] eqn:E; cbn [fst snd];
    rewrite ?shifted_digits;
    try (assert (Z.neg d = - Z.pos d) as Hd by reflexivity); lia.
Qed.

(** Rounding to binary64 leaves a whole number below [2^53] as it is. *)
Lemma round_whole (s : bool) (m : positive) (e n : Z) :
  0 < n < 2 ^ 53 ->
  SFrepresents (S754_finite false m e) n ->
  SFrepresents (binary_round prec emax s m e) (cond_Zopp s n) /\
  valid_binary (binary_round prec emax s m e) = true.
Proof.
  intros Hn H. pose proof (whole_digits m e n Hn H) as HD.
  pose proof (fexp_whole _ HD) as Hf.
  unfold binary_round. rewrite Hf.
  set (t := Z.pos (digits2_pos m) + e - 53) in *.
  pose proof (shl_align_exponent m e t) as [He Hdig].
  assert (SFrepresents
            (S754_finite false (shl_align m e t).1 (shl_align m e t).2) n) as Hv.
  { rewrite finite_scaled in H. cbn [cond_Zopp] in H.
    apply (finite_scaled_at false _ _ _ (Z.max 0 (- Z.min e t)));
      [lia | lia |]. cbn [cond_Zopp].
    rewrite shl_align_value by lia. apply H; lia. }
  destruct (shl_align m e t) as [mz ez]. cbn [fst snd] in *.
  destruct (round_aux_whole s mz ez n Hn Hv) as (M & E & -> & HM & HE & HdM).
  split; [apply signed_whole, HM|].
  unfold valid_binary. cbn [SpecFloat.valid_binary]. unfold bounded, canonical_mantissa.
  rewrite HdM, Hdig, Hf. fold t.
  apply andb_true_intro. split; [apply Z.eqb_eq | apply Z.leb_le; unfold emax, prec]; lia.
Qed.

Lemma normalize_whole (z e n : Z) (szero : bool) :
  - 2 ^ 53 < n < 2 ^ 53 ->
  (forall u, 0 <= u -> 0 <= e + u -> z * 2 ^ (e + u) = n * 2 ^ u) ->
  SFrepresents (binary_normalize prec emax z e szero) n /\
  valid_binary (binary_normalize prec emax z e szero) = true.
Proof.
  intros Hn H.
  specialize (H (Z.max 0 (- e)) ltac:(lia) ltac:(lia)).
  assert (0 < 2 ^ (e + Z.max 0 (- e))) as H1 by (apply Z.pow_pos_nonneg; lia).
  assert (0 < 2 ^ Z.max 0 (- e)) as H2 by (apply Z.pow_pos_nonneg; lia).
  destruct z as [|m|m]; cbn [binary_normalize].
  - split; [cbn [SFrepresents]; nia | reflexivity].
  - assert (0 < n) by nia.
    apply (round_whole false m e n); [lia|].
    apply (finite_scaled_at false m e n (Z.max 0 (- e))); [lia | lia | exact H].
  - assert (n < 0) by nia.
    replace n with (cond_Zopp true (- n)) by (cbn [cond_Zopp]; lia).
    apply (round_whole true m e (- n)); [lia|].
    apply (finite_scaled_at false m e (- n) (Z.max 0 (- e))); [lia | lia |].
    cbn [cond_Zopp]. change (Z.neg m) with (- Z.pos m) in H. lia.
Qed.

(** [float64(n)] is exact on the whole numbers below [2^53]. *)
Lemma float64_of_int_whole (z : Z) :
  - 2 ^ 53 < z < 2 ^ 53 -> represents (float64_of_int z) z.
Proof.
  intros Hz. unfold represents, float64_of_int.
  destruct (normalize_whole z 0 z false Hz) as [Hv Hvalid].
  { intros u Hu _. rewrite Z.add_0_l. reflexivity. }
  rewrite (Prim2SF_SF2Prim _ Hvalid). exact Hv.
Qed.

(** The product of two whole numbers is exact when it is below [2^53]. *)
Lemma mul_whole (x y : spec_float) (a b : Z) :
  SFrepresents x a -> SFrepresents y b ->
  - 2 ^ 53 < a * b < 2 ^ 53 ->
  SFrepresents (SF64mul x y) (a * b).
Proof.
  intros Hx Hy Hab. unfold SF64mul.
  destruct x as [sx|sx| |sx mx ex], y as [sy|sy| |sy my ey];
    cbn [SFrepresents SFmul] in *; try contradiction; subst; try lia.
  change (SFrepresents
            (binary_round_aux prec emax (xorb sx sy) (Z.pos (mx * my)) (ex + ey)
               loc_Exact) (a * b)).
  apply finite_abs in Hx, Hy.
  destruct Hx as (na & Ha & -> & Hx), Hy as (nb & Hb & -> & Hy).
  assert (0 < na * nb) as Hpos by nia.
  assert (cond_Zopp sx na * cond_Zopp sy nb = cond_Zopp (xorb sx sy) (na * nb)) as E
    by (destruct sx, sy; cbn [cond_Zopp xorb]; ring).
  rewrite E in *.
  assert (na * nb < 2 ^ 53) as Hlt
    by (destruct (xorb sx sy); cbn [cond_Zopp] in Hab; lia).
  assert (SFrepresents (S754_finite false (mx * my) (ex + ey)) (na * nb)) as Hv.
  { rewrite finite_scaled in Hx, Hy. cbn [cond_Zopp] in Hx, Hy.
    specialize (Hx (Z.max 0 (- ex)) ltac:(lia) ltac:(lia)).
    specialize (Hy (Z.max 0 (- ey)) ltac:(lia) ltac:(lia)).
    apply (finite_scaled_at false _ _ _ (Z.max 0 (- ex) + Z.max 0 (- ey)));
      [lia | lia |]. cbn [cond_Zopp].
    rewrite Pos2Z.inj_mul.
    replace (ex + ey + (Z.max 0 (- ex) + Z.max 0 (- ey)))
      with ((ex + Z.max 0 (- ex)) + (ey + Z.max 0 (- ey))) by lia.
    assert (0 <= ex + Z.max 0 (- ex)) as HA by lia.
    assert (0 <= ey + Z.max 0 (- ey)) as HB by lia.
    assert (0 <= Z.max 0 (- ex)) as HUA by lia.
    assert (0 <= Z.max 0 (- ey)) as HUB by lia.
    set (A := ex + Z.max 0 (- ex)) in *. set (B := ey + Z.max 0 (- ey)) in *.
    set (UA := Z.max 0 (- ex)) in *. set (UB := Z.max 0 (- ey)) in *.
    clearbody A B UA UB.
    rewrite (Z.pow_add_r 2 A B), (Z.pow_add_r 2 UA UB) by assumption.
    transitivity ((Z.pos mx * 2 ^ A) * (Z.pos my * 2 ^ B)); [ring|].
    rewrite Hx, Hy. ring. }
  destruct (round_aux_whole (xorb sx sy) (mx * my) (ex + ey) (na * nb)
              ltac:(lia) Hv) as (M & E' & -> & HM & _).
  apply signed_whole, HM.
Qed.

(** The difference of two whole numbers is exact when it is below
    [2^53]. *)
Lemma sub_whole (x y : spec_float) (a b : Z) :
  SFrepresents x a -> SFrepresents y b ->
  - 2 ^ 53 < a - b < 2 ^ 53 ->
  SFrepresents (SF64sub x y) (a - b).
Proof.
  intros Hx Hy Hab. unfold SF64sub.
  destruct x as [sx|sx| |sx mx ex], y as [sy|sy| |sy my ey];
    cbn [SFrepresents SFsub] in Hx, Hy |- *; try contradiction.
  - subst. destruct sx, sy; reflexivity.
  - subst. rewrite Z.sub_0_l.
    change (SFrepresents (S754_finite (negb sy) my ey) (- b)).
    apply finite_abs in Hy. destruct Hy as (n & Hn & -> & Hy).
    replace (- cond_Zopp sy n) with (cond_Zopp (negb sy) n)
      by (destruct sy; cbn [cond_Zopp negb]; lia).
    apply signed_whole, Hy.
  - subst. rewrite Z.sub_0_r. exact Hx.
  - change (SFrepresents
              (binary_normalize prec emax
                 (cond_Zopp sx (Z.pos (shl_align mx ex (Z.min ex ey)).1) -
                  cond_Zopp sy (Z.pos (shl_align my ey (Z.min ex ey)).1))
                 (Z.min ex ey) false) (a - b)).
    apply normalize_whole; [exact Hab|].
    intros u Hu Heu.
    change (SFrepresents (S754_finite sx mx ex) a) in Hx.
    change (SFrepresents (S754_finite sy my ey) b) in Hy.
    rewrite finite_scaled in Hx, Hy.
    specialize (Hx u Hu ltac:(lia)). specialize (Hy u Hu ltac:(lia)).
    pose proof (shl_align_value mx ex (Z.min ex ey) u ltac:(lia) ltac:(lia)) as Vx.
    pose proof (shl_align_value my ey (Z.min ex ey) u ltac:(lia) ltac:(lia)) as Vy.
    rewrite (proj1 (shl_align_exponent mx ex (Z.min ex ey))) in Vx.
    rewrite (proj1 (shl_align_exponent my ey (Z.min ex ey))) in Vy.
    replace (Z.min ex (Z.min ex ey)) with (Z.min ex ey) in Vx by lia.
    replace (Z.min ey (Z.min ex ey)) with (Z.min ex ey) in Vy by lia.
    rewrite Z.mul_sub_distr_r, Z.mul_sub_distr_r, <- Hx, <- Hy.
    destruct sx, sy; cbn [cond_Zopp]; rewrite ?Z.mul_opp_l, Vx, Vy; reflexivity.
Qed.

(** The debit of a booking on whole amounts: exact as long as the
    quantity, the cost and the new balance are below [2^53]. *)
Lemma debit_whole (balance price : float) (b p q : Z) :
  represents balance b -> represents price p ->
  - 2 ^ 53 < q < 2 ^ 53 ->
  - 2 ^ 53 < p * q < 2 ^ 53 ->
  - 2 ^ 53 < b - p * q < 2 ^ 53 ->
  represents (balance - price * float64_of_int q)%float (b - p * q).
Proof.
  intros Hb Hp Hq Hpq Hd. unfold represents in *.
  rewrite FloatAxioms.sub_spec, FloatAxioms.mul_spec.
  apply sub_whole; [exact Hb | | exact Hd].
  apply mul_whole; [exact Hp | | exact Hpq].
  apply float64_of_int_whole, Hq.
Qed.

(** * The claims *)

(** C1, as stated, fails: the balance is a float64 and the subtraction
    rounds.  With a balance of 1e16 and a price of 1 the preconditions
    hold and the booking goes through, the room is reserved, and the
    balance is what it was. *)
Lemma booking_can_lose_the_debit :
  let rich := mkUser 1 "rich" "pw" "customer" "regular" 10000000000000000%float in
  let cheap := mkRoom 1 "Single" 1%float 5 5 in
  let w := mkWorld [rich] [cheap] [number "1" 1; number "1" 1] [] [] in
  (Price cheap * float64_of_int 1 <=? Balance rich)%float = true /\
  rooms (run (bookRoom 0) w) = [mkRoom 1 "Single" 1%float 5 4] /\
  users (run (bookRoom 0) w) = [rich].
Proof.
  split; [|split]; vm_compute; reflexivity.
Qed.

(** C1, amended.  A booking whose preconditions hold (the room exists, the
    quantity is positive and at most the available count, the balance is
    at least price × quantity) lowers the room's available count by
    exactly the quantity and changes nothing else but the customer's
    balance.  The new balance is the binary64 difference of the old one
    and the binary64 product of the price and [float64(quantity)], each
    rounded to nearest.  The conversion is exact for a quantity below
    [2^53], and when the balance and the price are whole numbers and the
    cost and the new balance stay below [2^53], the new balance is exactly
    balance - price × quantity. *)
Theorem booking_debits_and_reserves
    (customer : nat) (w : World) (c : User)
    (id : Z) (i : nat) (room : Room) (q : Z) :
  users w !! customer = Some c ->
  Atoi (text (input 0 w)) = Some id ->
  list_find (fun r => RoomID r = id) (rooms w) = Some (i, room) ->
  Atoi (text (input 1 w)) = Some q ->
  0 < q -> q <= Available room -> is_int (Available room) ->
  (Price room * float64_of_int q <=? Balance c)%float = true ->
  exists c' room',
    users (run (bookRoom customer) w) = <[customer := c']> (users w) /\
    rooms (run (bookRoom customer) w) = <[i := room']> (rooms w) /\
    users (run (bookRoom customer) w) !! customer = Some c' /\
    rooms (run (bookRoom customer) w) !! i = Some room' /\
    c' = set_Balance (Balance c') c /\
    room' = set_Available (Available room') room /\
    Balance c' = (Balance c - Price room * float64_of_int q)%float /\
    Prim2SF (Balance c') =
      SF64sub (Prim2SF (Balance c))
              (SF64mul (Prim2SF (Price room)) (Prim2SF (float64_of_int q))) /\
    (q < 2 ^ 53 -> represents (float64_of_int q) q) /\
    (forall b p,
       represents (Balance c) b -> represents (Price room) p ->
       q < 2 ^ 53 -> - 2 ^ 53 < p * q < 2 ^ 53 -> - 2 ^ 53 < b - p * q < 2 ^ 53 ->
       represents (Balance c') (b - p * q)) /\
    Available room' = Available room - q.
Proof.
  intros Hc HA HF HQ Hpos Hav Hint Hfunds.
  apply float_leb_not_ltb in Hfunds.
  destruct (bookRoom_booked customer w id i room HA HF q HQ Hpos Hav c Hc Hfunds)
    as [Hu Hr].
  exists (set_Balance (Balance c - Price room * float64_of_int q)%float c),
         (set_Available (Available room - q) room).
  rewrite Hu, Hr.
  rewrite (wrap64_id (Available room - q))
    by (unfold is_int, int_min, int_max in *; lia).
  cbn [Balance set_Balance Available set_Available].
  split; [reflexivity|]. split; [reflexivity|].
  split; [apply list_lookup_insert_eq; eapply lookup_lt_Some, Hc|].
  split; [apply list_lookup_insert_eq;
          eapply lookup_lt_Some, (found_lookup _ _ _ _ HF)|].
  split; [destruct c; reflexivity|]. split; [destruct room; reflexivity|].
  split; [reflexivity|].
  split; [rewrite FloatAxioms.sub_spec, FloatAxioms.mul_spec; reflexivity|].
  split; [intros Hq; apply float64_of_int_whole; lia|].
  split; [|reflexivity].
  intros b p Hb Hp Hq Hpq Hd. apply debit_whole; [exact Hb | exact Hp | lia | exact Hpq | exact Hd].
Qed.

Lemma booking_debits_and_reserves_witness :
  exists c' room',
    users (run (bookRoom 1) (hotel [number "1" 1; number "2" 2])) =
      <[1%nat := c']> [admin; alice] /\
    rooms (run (bookRoom 1) (hotel [number "1" 1; number "2" 2])) =
      <[0%nat := room']> [single] /\
    Balance c' = (1000 - 100 * float64_of_int 2)%float /\
    represents (float64_of_int 2) 2 /\
    represents (Balance c') (1000 - 100 * 2) /\
    Available room' = 5 - 2.
Proof.
  destruct (booking_debits_and_reserves
              1 (hotel [number "1" 1; number "2" 2]) alice 1 0 single 2)
    as (c' & room' & Hu & Hr & _ & _ & _ & _ & Hb & _ & Hq & Hwhole & Ha).
  - reflexivity.
  - reflexivity.
  - reflexivity.
  - reflexivity.
  - reflexivity.
  - intros H; discriminate H.
  - split; intros H; discriminate H.
  - reflexivity.
  - exists c', room'. split; [exact Hu|]. split; [exact Hr|]. split; [exact Hb|].
    split; [apply Hq; reflexivity|]. split; [|exact Ha].
    apply (Hwhole 1000 100).
    + vm_compute. reflexivity.
    + vm_compute. reflexivity.
    + reflexivity.
    + split; reflexivity.
    + split; reflexivity.
Defined.



(** C10.  When the room exists and what is typed as the quantity is not a
    positive integer (it does not parse, or is zero or negative) the
    booking is refused with "无效的数量" and both stores are unchanged. *)
Theorem booking_needs_positive_quantity
    (customer : nat) (w : World) (id : Z) (i : nat) (room : Room) :
  Atoi (text (input 0 w)) = Some id ->
  list_find (fun r => RoomID r = id) (rooms w) = Some (i, room) ->
  (forall q, Atoi (text (input 1 w)) = Some q -> q <= 0) ->
  aborted "无效的数量" w (run (bookRoom customer) w).
Proof.
  intros HA HF Hq. exact (bookRoom_bad_quantity customer w id i room HA HF Hq).
Qed.

Lemma booking_needs_positive_quantity_witness :
  aborted "无效的数量" (hotel [number "1" 1; number "0" 0])
          (run (bookRoom 1) (hotel [number "1" 1; number "0" 0])).
Proof.
  apply (booking_needs_positive_quantity
           1 (hotel [number "1" 1; number "0" 0]) 1 0 single).
  - reflexivity.
  - reflexivity.
  - intros q H. injection H as <-. intros H; discriminate H.
Defined.

(** ** User names and IDs *)

Lemma nameTaken_true (name : string) (us : list User) :
  (exists u, u ∈ us /\ Username u = name) -> nameTaken name us = true.
Proof.
  intros [u [Hin Hname]]. unfold nameTaken. apply existsb_exists.
  exists u. split; [apply list_elem_of_In, Hin | apply String.eqb_eq, Hname].
Qed.

Lemma largest_nonneg (ids : list Z) : 0 <= largest ids.
Proof. unfold largest. induction ids as [|x ids IH]; simpl; lia. Qed.

Lemma largest_upper (ids : list Z) (x : Z) : x ∈ ids -> x <= largest ids.
Proof.
  unfold largest. induction 1 as [x ids | x y ids Hin IH]; simpl; lia.
Qed.

Lemma largest_below (ids : list Z) (b : Z) :
  0 < b -> Forall (fun x => x < b) ids -> largest ids < b.
Proof.
  intros Hb. unfold largest. induction 1 as [|x ids Hx Hall IH]; simpl; lia.
Qed.

(** The loop of [getNextUserID] and [getNextRoomID], started at [a]. *)
Lemma scan_max {A} (f : A -> Z) (l : list A) (a : Z) :
  0 <= a ->
  fold_left (fun m x => if f x >? m then f x else m) l a = Z.max a (largest (f <$> l)).
Proof.
  unfold largest. revert a. induction l as [|x l IH]; intros a Ha; csimpl.
  - lia.
  - rewrite IH.
    + rewrite Z.gtb_ltb. destruct (Z.ltb_spec a (f x)); lia.
    + rewrite Z.gtb_ltb. destruct (Z.ltb_spec a (f x)); lia.
Qed.

Lemma next_is_fresh {A} (f : A -> Z) (l : list A) :
  Forall (fun x => f x < int_max) l ->
  fresh_id (f <$> l)
    (wrap64 (fold_left (fun m x => if f x >? m then f x else m) l 0 + 1)).
Proof.
  intros Hall. rewrite scan_max by lia.
  pose proof (largest_nonneg (f <$> l)) as H0.
  assert (Hlt : largest (f <$> l) < int_max).
  { apply largest_below; [reflexivity|]. apply Forall_fmap. exact Hall. }
  rewrite Z.max_r by lia.
  rewrite wrap64_id by (unfold is_int, int_min, int_max in *; lia).
  split; [reflexivity|].
  intros x Hx. apply largest_upper in Hx. lia.
Qed.

(** ** The claims, continued *)

(** C6.  Creating a user, by registration or by the administrator, under
    a name some existing user already has is refused with "用户名已存在！"
    and leaves the stores unchanged. *)
Theorem duplicate_username_rejected (w : World) :
  (exists u, u ∈ users w /\ Username u = text (input 0 w)) ->
  aborted "用户名已存在！" w (run registerCustomer w) /\
  aborted "用户名已存在！" w (run addUser w).
Proof.
  intros H. apply nameTaken_true in H. split.
  - apply registerCustomer_existing, H.
  - apply addUser_existing, H.
Qed.

Lemma duplicate_username_rejected_witness :
  aborted "用户名已存在！" (hotel [typed "alice"])
          (run registerCustomer (hotel [typed "alice"])) /\
  aborted "用户名已存在！" (hotel [typed "alice"])
          (run addUser (hotel [typed "alice"])).
Proof.
  apply (duplicate_username_rejected (hotel [typed "alice"])).
  exists alice. split.
  - apply list_elem_of_further, list_elem_of_here.
  - reflexivity.
Defined.

(** C9.  When the price and the total typed into add-room both parse, the
    room appended has its available count equal to its total, and the
    rooms that were there, and the users, are as before. *)
Theorem new_room_fully_available (w : World) (price : float) (total : Z) :
  ParseFloat (input 1 w) = Some price ->
  Atoi (text (input 2 w)) = Some total ->
  exists r,
    rooms (run addRoom w) = rooms w ++ [r] /\
    Available r = Total r /\ Total r = total /\ Price r = price /\
    (forall j r0, rooms w !! j = Some r0 -> rooms (run addRoom w) !! j = Some r0) /\
    users (run addRoom w) = users w.
Proof.
  intros HP HA.
  exists (mkRoom (getNextRoomID (rooms w)) (text (input 0 w)) price total total).
  pose proof (addRoom_added w price total HP HA) as E.
  repeat split; try exact E.
  - intros j r0 Hj. rewrite E. apply lookup_app_l_Some, Hj.
  - apply addRoom_keeps_users.
Qed.

Lemma new_room_fully_available_witness :
  exists r,
    rooms (run addRoom (hotel [typed "Suite"; number "300" 300; number "4" 4])) =
      [single] ++ [r] /\
    Available r = Total r /\ Total r = 4 /\ Price r = 300%float /\
    (forall j r0, [single] !! j = Some r0 ->
       rooms (run addRoom (hotel [typed "Suite"; number "300" 300; number "4" 4])) !! j
         = Some r0) /\
    users (run addRoom (hotel [typed "Suite"; number "300" 300; number "4" 4])) =
      [admin; alice].
Proof.
  apply (new_room_fully_available
           (hotel [typed "Suite"; number "300" 300; number "4" 4]) 300%float 4).
  - reflexivity.
  - reflexivity.
Defined.

(** C7, as stated, fails: with a store whose only ID is -5 the next ID is
    1, not -5 + 1. *)
Lemma next_id_with_negative_ids :
  getNextUserID [mkUser (-5) "guest" "guest" "customer" "regular" 0%float] = 1 /\
  1 <> -5 + 1.
Proof. split; [reflexivity | discriminate]. Qed.

(** C7, amended.  The ID given to a new record is one more than the
    larger of 0 and the largest existing ID (so 1 for an empty store), and
    as long as every existing ID is below the largest [int] it differs
    from all of them; registration, add-user and add-room append at most
    one record and give it that ID. *)
Theorem next_id_is_fresh (w : World) :
  Forall (fun u => UserID u < int_max) (users w) ->
  Forall (fun r => RoomID r < int_max) (rooms w) ->
  fresh_id (UserID <$> users w) (getNextUserID (users w)) /\
  fresh_id (RoomID <$> rooms w) (getNextRoomID (rooms w)) /\
  user_added w (run registerCustomer w) /\
  user_added w (run addUser w) /\
  room_added w (run addRoom w).
Proof.
  intros Hu Hr. split; [|split; [|split; [|split]]].
  - apply (next_is_fresh UserID), Hu.
  - apply (next_is_fresh RoomID), Hr.
  - destruct (nameTaken (text (input 0 w)) (users w)) eqn:E.
    + left. apply (registerCustomer_existing w E).
    + right. eexists. split; [apply (registerCustomer_new w E) | reflexivity].
  - destruct (nameTaken (text (input 0 w)) (users w)) eqn:E.
    { left. apply (addUser_existing w E). }
    destruct (String.eqb_spec (text (input 2 w)) "1") as [H1|H1].
    { right. eexists. split; [apply (addUser_admin w E H1) | reflexivity]. }
    destruct (String.eqb_spec (text (input 2 w)) "2") as [H2|H2].
    { right. eexists. split; [apply (addUser_customer w E H2) | reflexivity]. }
    left. apply (addUser_bad_role w E H1 H2).
  - destruct (ParseFloat (input 1 w)) as [p|] eqn:HP.
    2: { left. apply (addRoom_bad_price w HP). }
    destruct (Atoi (text (input 2 w))) as [t|] eqn:HA.
    2: { left. apply (addRoom_bad_total w p HP HA). }
    right. eexists. split; [apply (addRoom_added w p t HP HA) | reflexivity].
Qed.

Lemma next_id_is_fresh_witness :
  fresh_id [1; 2] 3 /\ fresh_id [1] 2 /\
  user_added (hotel [typed "bob"; typed "pw"; number "1" 1])
             (run registerCustomer (hotel [typed "bob"; typed "pw"; number "1" 1])) /\
  user_added (hotel [typed "bob"; typed "pw"; number "1" 1])
             (run addUser (hotel [typed "bob"; typed "pw"; number "1" 1])) /\
  room_added (hotel [typed "bob"; typed "pw"; number "1" 1])
             (run addRoom (hotel [typed "bob"; typed "pw"; number "1" 1])).
Proof.
  apply (next_id_is_fresh (hotel [typed "bob"; typed "pw"; number "1" 1])).
  - repeat constructor.
  - repeat constructor.
Defined.

(** ** What an update leaves in the record *)

Section Updated.
Variable w : World.

Lemma updatedUser_keeps (u : User) :
    UserID (updatedUser w u) = UserID u /\
    Role (updatedUser w u) = Role u /\
    (text (input 1 w) = "" -> Username (updatedUser w u) = Username u) /\
    (text (input 2 w) = "" -> Password (updatedUser w u) = Password u) /\
    (text (input 3 w) = "" -> CustomerType (updatedUser w u) = CustomerType u) /\
    (text (input 4 w) = "" -> Balance (updatedUser w u) = Balance u).
  Proof.
    unfold updatedUser.
    repeat split; intros; rewrite ?H; cbn [String.eqb Ascii.eqb Bool.eqb];
      repeat match goal with
             | |- context [String.eqb ?a ?b] => destruct (String.eqb a b)
             | |- context [ParseFloat ?l] => destruct (ParseFloat l)
             end; reflexivity.
  Qed.

Lemma adjustTotal_fields (total : Z) (room : Room) :
    RoomID (adjustTotal total room) = RoomID room /\
    RoomType (adjustTotal total room) = RoomType room /\
    Price (adjustTotal total room) = Price room /\
    Total (adjustTotal total room) = total /\
    0 <= Available (adjustTotal total room).
  Proof.
    unfold adjustTotal. cbn [Available set_Available set_Total].
    destruct (Z.ltb_spec (wrap64 (Available room + wrap64 (total - Total room))) 0);
      repeat split; cbn; lia.
  Qed.

  (** With a total that is not negative the adjustment keeps
      [0 <= available <= total]. *)
Lemma adjustTotal_ok (total : Z) (room : Room) :
    room_ok room -> 0 <= total <= int_max -> room_ok (adjustTotal total room).
  Proof.
    intros (Hp & Ht & Ha) Hn. unfold room_ok, adjustTotal.
    cbn [Available set_Available set_Total].
    rewrite (wrap64_id (total - Total room))
      by (unfold is_int, int_min, int_max in *; lia).
    rewrite (wrap64_id (Available room + (total - Total room)))
      by (unfold is_int, int_min, int_max in *; lia).
    destruct (Z.ltb_spec (Available room + (total - Total room)) 0);
      cbn; repeat split; try assumption; lia.
  Qed.

Lemma updatedRoom_keeps (room : Room) :
    RoomID (updatedRoom w room) = RoomID room /\
    (text (input 1 w) = "" -> RoomType (updatedRoom w room) = RoomType room) /\
    (text (input 2 w) = "" -> Price (updatedRoom w room) = Price room) /\
    (text (input 3 w) = "" ->
       Total (updatedRoom w room) = Total room /\
       Available (updatedRoom w room) = Available room).
  Proof.
    unfold updatedRoom.
    repeat split; intros; rewrite ?H; cbn [String.eqb Ascii.eqb Bool.eqb];
      repeat match goal with
             | |- context [String.eqb ?a ?b] => destruct (String.eqb a b)
             | |- context [ParseFloat ?l] => destruct (ParseFloat l)
             | |- context [Atoi ?l] => destruct (Atoi l)
             end;
      first [ reflexivity | split; reflexivity
            | etransitivity; [apply adjustTotal_fields | reflexivity] ].
  Qed.

Lemma room_ok_type (s : string) (room : Room) :
    room_ok room -> room_ok (set_RoomType s room).
  Proof. intros H. exact H. Qed.

Lemma room_ok_price (p : float) (room : Room) :
    (0 <=? p)%float = true -> room_ok room -> room_ok (set_Price p room).
  Proof. intros Hp (_ & Ht & Ha). repeat split; cbn; first [assumption | lia]. Qed.

Lemma updatedRoom_ok (room : Room) :
    room_ok room -> entered_nonneg OpUpdateRoom w -> room_ok (updatedRoom w room).
  Proof.
    intros Hok [Hprice Htotal]. unfold updatedRoom.
    set (r1 := if String.eqb (text (input 1 w)) "" then room
               else set_RoomType (text (input 1 w)) room).
    assert (H1 : room_ok r1).
    { subst r1. destruct (String.eqb (text (input 1 w)) "");
        [exact Hok | apply room_ok_type, Hok]. }
    clearbody r1.
    set (r2 := if String.eqb (text (input 2 w)) "" then r1
               else match ParseFloat (input 2 w) with
                    | Some price => set_Price price r1
                    | None => r1
                    end).
    assert (H2 : room_ok r2).
    { subst r2. destruct (String.eqb (text (input 2 w)) ""); [exact H1|].
      destruct (ParseFloat (input 2 w)) as [p|] eqn:HP; [|exact H1].
      apply room_ok_price; [apply Hprice; reflexivity | exact H1]. }
    clearbody r2.
    destruct (String.eqb (text (input 3 w)) ""); [exact H2|].
    destruct (Atoi (text (input 3 w))) as [t|] eqn:HA; [|exact H2].
    apply adjustTotal_ok; [exact H2|].
    apply Atoi_is_int in HA. destruct HA as [_ Hmax].
    split; [apply Htotal; reflexivity | exact Hmax].
  Qed.
End Updated.

(** ** The claims about updates and invariants *)

(** C8.  In an update of an existing user or room every field whose line
    is left empty keeps its value, the ID (and a user's role) cannot be
    changed, and every other record of both stores is as before. *)
Theorem update_keeps_blank_fields (w : World) :
  (forall id i u,
     Atoi (text (input 0 w)) = Some id ->
     list_find (fun u => UserID u = id) (users w) = Some (i, u) ->
     exists u',
       users (run updateUser w) = <[i := u']> (users w) /\
       rooms (run updateUser w) = rooms w /\
       (forall j, j <> i -> users (run updateUser w) !! j = users w !! j) /\
       UserID u' = UserID u /\ Role u' = Role u /\
       (text (input 1 w) = "" -> Username u' = Username u) /\
       (text (input 2 w) = "" -> Password u' = Password u) /\
       (text (input 3 w) = "" -> CustomerType u' = CustomerType u) /\
       (text (input 4 w) = "" -> Balance u' = Balance u)) /\
  (forall id i r,
     Atoi (text (input 0 w)) = Some id ->
     list_find (fun r => RoomID r = id) (rooms w) = Some (i, r) ->
     exists r',
       rooms (run updateRoom w) = <[i := r']> (rooms w) /\
       users (run updateRoom w) = users w /\
       (forall j, j <> i -> rooms (run updateRoom w) !! j = rooms w !! j) /\
       RoomID r' = RoomID r /\
       (text (input 1 w) = "" -> RoomType r' = RoomType r) /\
       (text (input 2 w) = "" -> Price r' = Price r) /\
       (text (input 3 w) = "" -> Total r' = Total r /\ Available r' = Available r)).
Proof.
  split.
  - intros id i u HA HF. exists (updatedUser w u).
    pose proof (updateUser_found w id HA i u HF) as E.
    split; [exact E|]. split; [apply updateUser_keeps_rooms|].
    split; [intros j Hj; rewrite E; apply insert_others, Hj|].
    apply updatedUser_keeps.
  - intros id i r HA HF. exists (updatedRoom w r).
    pose proof (updateRoom_found w id HA i r HF) as E.
    split; [exact E|]. split; [apply updateRoom_keeps_users|].
    split; [intros j Hj; rewrite E; apply insert_others, Hj|].
    apply updatedRoom_keeps.
Qed.

Lemma update_keeps_blank_fields_witness :
  (exists u',
     users (run updateUser (hotel [number "2" 2; typed "alicia"])) =
       <[1%nat := u']> [admin; alice] /\
     Password u' = "secret" /\
     CustomerType u' = "regular" /\ Balance u' = 1000%float) /\
  (exists r',
     rooms (run updateRoom (hotel [number "1" 1; typed ""; number "120" 120])) =
       <[0%nat := r']> [single] /\
     RoomType r' = "Single" /\ Total r' = 5 /\ Available r' = 5).
Proof.
  split.
  - destruct (proj1 (update_keeps_blank_fields (hotel [number "2" 2; typed "alicia"]))
                2 1%nat alice eq_refl eq_refl)
      as (u' & E & _ & _ & _ & _ & _ & Hp & Hc & Hb).
    exists u'. split; [exact E|].
    split; [exact (Hp eq_refl)|]. split; [exact (Hc eq_refl) | exact (Hb eq_refl)].
  - destruct (proj2 (update_keeps_blank_fields
                       (hotel [number "1" 1; typed ""; number "120" 120]))
                1 0%nat single eq_refl eq_refl)
      as (r' & E & _ & _ & _ & Ht & _ & Hn).
    exists r'. split; [exact E|].
    split; [exact (Ht eq_refl) | exact (Hn eq_refl)].
Defined.

(** C3, as stated, fails: add-room stores a negative total unchecked. *)
Lemma addRoom_takes_negative_total :
  Forall room_ok (rooms (hotel [typed "Suite"; number "100" 100; number "-3" (-3)])) /\
  rooms (run addRoom (hotel [typed "Suite"; number "100" 100; number "-3" (-3)])) =
    [single; mkRoom 2 "Suite" 100%float (-3) (-3)] /\
  ~ room_ok (mkRoom 2 "Suite" 100%float (-3) (-3)).
Proof.
  split; [|split].
  - repeat constructor; discriminate.
  - reflexivity.
  - intros (_ & [H _] & _). apply H. reflexivity.
Qed.

(** C3, amended.  A booking keeps [price >= 0], [total >= 0] and
    [0 <= available <= total] for every room, and so does every other
    operation as long as the price and the total typed into add-room and
    update-room are not negative: these two store what is typed without
    checking its sign. *)
Theorem room_constraints_kept (op : Op) (w : World) :
  Forall room_ok (rooms w) ->
  entered_nonneg op w ->
  Forall room_ok (rooms (step op w)).
Proof.
  intros Hok Hin. unfold step.
  destruct op as [| | | | | | | | | |customer]; cbn [operation].
  - change (Forall room_ok (rooms ((_ <- login ;; ret tt) w).2)).
    rewrite (preserves_bind rooms login (fun _ => ret tt) login_keeps_rooms
               (fun _ w0 => eq_refl)). exact Hok.
  - rewrite (registerCustomer_keeps_rooms w : rooms (run _ w) = _). exact Hok.
  - rewrite (listUsers_keeps_rooms w : rooms (run _ w) = _). exact Hok.
  - rewrite (addUser_keeps_rooms w : rooms (run _ w) = _). exact Hok.
  - rewrite (updateUser_keeps_rooms w : rooms (run _ w) = _). exact Hok.
  - rewrite (deleteUser_keeps_rooms w : rooms (run _ w) = _). exact Hok.
  - rewrite (listRooms_keeps_rooms w : rooms (run _ w) = _). exact Hok.
  - destruct Hin as [Hprice Htotal].
    destruct (ParseFloat (input 1 w)) as [p|] eqn:HP.
    2: { rewrite (proj2 (proj1 (addRoom_bad_price w HP))). exact Hok. }
    destruct (Atoi (text (input 2 w))) as [t|] eqn:HA.
    2: { rewrite (proj2 (proj1 (addRoom_bad_total w p HP HA))). exact Hok. }
    rewrite (addRoom_added w p t HP HA). apply Forall_app. split; [exact Hok|].
    constructor; [|constructor].
    pose proof (Htotal t eq_refl) as Ht. apply Atoi_is_int in HA. destruct HA.
    repeat split; cbn; first [apply Hprice; reflexivity | lia].
  - destruct (Atoi (text (input 0 w))) as [id|] eqn:HA.
    2: { rewrite (proj2 (proj1 (updateRoom_bad_id w HA))). exact Hok. }
    destruct (list_find (fun r => RoomID r = id) (rooms w)) as [[i room]|] eqn:HF.
    2: { rewrite (proj2 (proj1 (updateRoom_missing w id HA HF))). exact Hok. }
    rewrite (updateRoom_found w id HA i room HF).
    apply Forall_insert; [exact Hok|].
    apply updatedRoom_ok; [|exact Hin].
    apply (Forall_lookup_1 _ _ _ _ Hok (found_lookup _ _ _ _ HF)).
  - destruct (Atoi (text (input 0 w))) as [id|] eqn:HA.
    2: { rewrite (proj2 (proj1 (deleteRoom_bad_id w HA))). exact Hok. }
    destruct (list_find (fun r => RoomID r = id) (rooms w)) as [[i room]|] eqn:HF.
    2: { rewrite (proj2 (proj1 (deleteRoom_missing w id HA HF))). exact Hok. }
    destruct (deleteRoom_found w id HA i room HF) as [E|E]; rewrite E.
    + exact Hok.
    + apply Forall_delete, Hok.
  - destruct (bookRoom_outcome customer w)
      as [[_ E] | (id & i & room & q & c & _ & HF & _ & Hq & _ & _ & _ & E)];
      rewrite E; [exact Hok|].
    apply Forall_insert; [exact Hok|].
    destruct (Forall_lookup_1 _ _ _ _ Hok (found_lookup _ _ _ _ HF))
      as (Hp & Ht & Ha).
    rewrite wrap64_id by (unfold is_int, int_min, int_max in *; lia).
    repeat split; cbn; first [assumption | lia].
Qed.

Lemma room_constraints_kept_witness :
  Forall room_ok (rooms (step OpUpdateRoom
                           (hotel [number "1" 1; typed ""; typed ""; number "3" 3]))).
Proof.
  apply (room_constraints_kept OpUpdateRoom
           (hotel [number "1" 1; typed ""; typed ""; number "3" 3])).
  - repeat constructor; discriminate.
  - split.
    + intros p H; discriminate H.
    + intros t H. injection H as <-. discriminate.
Defined.

(** C4, as stated, fails: in update-room a total that does not parse does
    not undo the room type entered before it. *)
Lemma updateRoom_keeps_earlier_edits :
  Atoi (text (input 3 (hotel [number "1" 1; typed "Suite"; typed ""; typed "abc"]))) = None /\
  rooms (run updateRoom (hotel [number "1" 1; typed "Suite"; typed ""; typed "abc"])) =
    [mkRoom 1 "Suite" 100%float 5 5] /\
  rooms (run updateRoom (hotel [number "1" 1; typed "Suite"; typed ""; typed "abc"])) <>
    rooms (hotel [number "1" 1; typed "Suite"; typed ""; typed "abc"]).
Proof.
  split; [reflexivity|]. split; [reflexivity|].
  intros H. vm_compute in H. discriminate H.
Qed.

Lemma Atoi_empty (s : string) : String.eqb s "" = true -> Atoi s = None.
Proof. intros H. apply String.eqb_eq in H. subst s. reflexivity. Qed.

Lemma ParseFloat_empty (l : Line) :
  String.eqb (text l) "" = true -> ParseFloat l = None.
Proof. intros H. unfold ParseFloat. rewrite H. reflexivity. Qed.

Lemma adjustTotal_record (total : Z) (room : Room) :
  adjustTotal total room =
    mkRoom (RoomID room) (RoomType room) (Price room) total
           (Z.max 0 (wrap64 (Available room + wrap64 (total - Total room)))).
Proof.
  destruct room as [rid ty price t a]. unfold adjustTotal.
  cbn [RoomID RoomType Price Total Available set_Available set_Total].
  destruct (Z.ltb_spec (wrap64 (a + wrap64 (total - t))) 0);
    cbn [RoomID RoomType Price Total Available set_Available];
    [rewrite Z.max_l by lia | rewrite Z.max_r by lia]; reflexivity.
Qed.

(** The record [updateUser] leaves when the balance typed does not parse:
    the name, the password and the type as typed, the balance as it was. *)
Lemma updatedUser_bad_balance_record (w : World) (u : User) :
  Role u = "customer" -> ParseFloat (input 4 w) = None ->
  updatedUser w u =
    mkUser (UserID u) (entered (input 1 w) (Username u))
           (entered (input 2 w) (Password u)) (Role u)
           (chosenType (input 3 w) (CustomerType u)) (Balance u).
Proof.
  intros Hrole HP. destruct u as [uid name pw role ct bal].
  cbn [Role] in Hrole. subst role.
  unfold updatedUser, entered, chosenType. rewrite HP.
  cbn [UserID Username Password Role CustomerType Balance
       String.eqb Ascii.eqb Bool.eqb].
  destruct (String.eqb (text (input 1 w)) ""), (String.eqb (text (input 2 w)) ""),
    (String.eqb (text (input 3 w)) "1"), (String.eqb (text (input 3 w)) "2"),
    (String.eqb (text (input 4 w)) ""); reflexivity.
Qed.

Lemma updatedRoom_bad_price_record (w : World) (r : Room) :
  ParseFloat (input 2 w) = None ->
  updatedRoom w r =
    mkRoom (RoomID r) (entered (input 1 w) (RoomType r)) (Price r)
           (enteredTotal (input 3 w) r).1 (enteredTotal (input 3 w) r).2.
Proof.
  intros HP. unfold updatedRoom, entered, enteredTotal. rewrite HP.
  destruct r as [rid ty price total avail].
  destruct (String.eqb (text (input 3 w)) "") eqn:E3.
  - rewrite (Atoi_empty _ E3).
    destruct (String.eqb (text (input 1 w)) ""), (String.eqb (text (input 2 w)) "");
      reflexivity.
  - destruct (Atoi (text (input 3 w))) as [t|];
      destruct (String.eqb (text (input 1 w)) ""), (String.eqb (text (input 2 w)) "");
      rewrite ?adjustTotal_record; reflexivity.
Qed.

Lemma updatedRoom_bad_total_record (w : World) (r : Room) :
  Atoi (text (input 3 w)) = None ->
  updatedRoom w r =
    mkRoom (RoomID r) (entered (input 1 w) (RoomType r))
           (enteredPrice (input 2 w) (Price r)) (Total r) (Available r).
Proof.
  intros HA. unfold updatedRoom, entered, enteredPrice. rewrite HA.
  destruct r as [rid ty price total avail].
  destruct (String.eqb (text (input 2 w)) "") eqn:E2.
  - rewrite (ParseFloat_empty _ E2).
    destruct (String.eqb (text (input 1 w)) ""), (String.eqb (text (input 3 w)) "");
      reflexivity.
  - destruct (ParseFloat (input 2 w)) as [p|];
      destruct (String.eqb (text (input 1 w)) ""), (String.eqb (text (input 3 w)) "");
      reflexivity.
Qed.

Lemma found_some {A} (P : A -> Prop) `{!forall x, Decision (P x)}
    (l : list A) (x : A) :
  x ∈ l -> P x -> exists i y, list_find P l = Some (i, y).
Proof.
  intros Hin HP. destruct (list_find P l) as [[i y]|] eqn:E; [eauto|].
  apply list_find_None in E. exfalso.
  apply (proj1 (Forall_forall _ _) E x Hin HP).
Qed.

(** C4, amended.  An ID that is not a number and an ID no record has (in
    the updates and deletions of users and rooms and in a booking), a
    booking quantity that is not a number, and in add-room a price or a
    total that does not parse, are reported and end the operation with
    both stores unchanged.  In update-user and update-room a balance, a
    price or a total that does not parse is reported and only that field
    keeps its value: the operation goes on, stores the other fields as
    they were typed, touches no other record and ends on its success
    message. *)
Theorem invalid_input_handling (w : World) :
  (forall op msg, invalid_input w op msg -> aborted msg w (step op w)) /\
  (forall id i u,
     Atoi (text (input 0 w)) = Some id ->
     list_find (fun u => UserID u = id) (users w) = Some (i, u) ->
     Role u = "customer" ->
     text (input 4 w) <> "" -> ParseFloat (input 4 w) = None ->
     Println "无效的余额输入" ∈ stdout (run updateUser w) /\
     reported (Println "用户信息更新成功") (run updateUser w) /\
     rooms (run updateUser w) = rooms w /\
     users (run updateUser w) =
       <[i := mkUser (UserID u) (entered (input 1 w) (Username u))
                     (entered (input 2 w) (Password u)) (Role u)
                     (chosenType (input 3 w) (CustomerType u)) (Balance u)]>
         (users w)) /\
  (forall id i r,
     Atoi (text (input 0 w)) = Some id ->
     list_find (fun r => RoomID r = id) (rooms w) = Some (i, r) ->
     text (input 2 w) <> "" -> ParseFloat (input 2 w) = None ->
     Println "无效的价格输入" ∈ stdout (run updateRoom w) /\
     reported (Println "房间信息更新成功") (run updateRoom w) /\
     users (run updateRoom w) = users w /\
     rooms (run updateRoom w) =
       <[i := mkRoom (RoomID r) (entered (input 1 w) (RoomType r)) (Price r)
                     (enteredTotal (input 3 w) r).1 (enteredTotal (input 3 w) r).2]>
         (rooms w)) /\
  (forall id i r,
     Atoi (text (input 0 w)) = Some id ->
     list_find (fun r => RoomID r = id) (rooms w) = Some (i, r) ->
     text (input 3 w) <> "" -> Atoi (text (input 3 w)) = None ->
     Println "无效的数量输入" ∈ stdout (run updateRoom w) /\
     reported (Println "房间信息更新成功") (run updateRoom w) /\
     users (run updateRoom w) = users w /\
     rooms (run updateRoom w) =
       <[i := mkRoom (RoomID r) (entered (input 1 w) (RoomType r))
                     (enteredPrice (input 2 w) (Price r)) (Total r) (Available r)]>
         (rooms w)).
Proof.
  split; [|split; [|split]].
  - intros op msg [op' [-> | ->] HA | op' [-> | ->] HA
                  | op' id [-> | ->] HA Hnone | op' id [-> | ->] HA Hnone
                  | HP | price HP HA
                  | customer Hne HA | customer id Hne HA Hnone
                  | customer id r HA Hin Hid HQ]; unfold step; cbn [operation].
    + apply updateUser_bad_id, HA.
    + apply deleteUser_bad_id, HA.
    + apply updateRoom_bad_id, HA.
    + apply deleteRoom_bad_id, HA.
    + apply (updateUser_missing w id HA), missing_all, Hnone.
    + apply (deleteUser_missing w id HA), missing_all, Hnone.
    + apply (updateRoom_missing w id HA), missing_all, Hnone.
    + apply (deleteRoom_missing w id HA), missing_all, Hnone.
    + apply addRoom_bad_price, HP.
    + apply (addRoom_bad_total w price HP HA).
    + apply (bookRoom_bad_id customer w Hne HA).
    + apply (bookRoom_missing customer w id Hne HA), missing_all, Hnone.
    + destruct (found_some (fun r => RoomID r = id) (rooms w) r Hin Hid)
        as (i & room & HF).
      apply (bookRoom_bad_quantity customer w id i room HA HF).
      intros q Hq. rewrite HQ in Hq. discriminate Hq.
  - intros id i u HA HF Hrole Hne HP.
    split; [apply (updateUser_bad_balance w id HA i u HF Hrole Hne HP)|].
    split; [apply (updateUser_done w id HA i u HF)|].
    split; [apply updateUser_keeps_rooms|].
    rewrite (updateUser_found w id HA i u HF).
    rewrite (updatedUser_bad_balance_record w u Hrole HP). reflexivity.
  - intros id i r HA HF Hne HP.
    split; [apply (updateRoom_bad_price w id HA i r HF Hne HP)|].
    split; [apply (updateRoom_done w id HA i r HF)|].
    split; [apply updateRoom_keeps_users|].
    rewrite (updateRoom_found w id HA i r HF).
    rewrite (updatedRoom_bad_price_record w r HP). reflexivity.
  - intros id i r HA HF Hne HP.
    split; [apply (updateRoom_bad_total w id HA i r HF Hne HP)|].
    split; [apply (updateRoom_done w id HA i r HF)|].
    split; [apply updateRoom_keeps_users|].
    rewrite (updateRoom_found w id HA i r HF).
    rewrite (updatedRoom_bad_total_record w r HP). reflexivity.
Qed.

Lemma invalid_input_handling_witness :
  aborted "无效的ID" (hotel [typed "two"])
          (step OpDeleteUser (hotel [typed "two"])) /\
  aborted "未找到该房间" (hotel [number "7" 7])
          (step OpUpdateRoom (hotel [number "7" 7])) /\
  aborted "无效的价格输入" (hotel [typed "Suite"; typed "cheap"])
          (step OpAddRoom (hotel [typed "Suite"; typed "cheap"])) /\
  aborted "无效的数量" (hotel [number "1" 1; typed "two"])
          (step (OpBookRoom 1) (hotel [number "1" 1; typed "two"])) /\
  (Println "无效的余额输入" ∈
     stdout (run updateUser
               (hotel [number "2" 2; typed "alicia"; typed ""; typed "1"; typed "lots"])) /\
   reported (Println "用户信息更新成功")
     (run updateUser
        (hotel [number "2" 2; typed "alicia"; typed ""; typed "1"; typed "lots"])) /\
   users (run updateUser
            (hotel [number "2" 2; typed "alicia"; typed ""; typed "1"; typed "lots"])) =
     [admin; mkUser 2 "alicia" "secret" "customer" "member" 1000%float]) /\
  (Println "无效的价格输入" ∈
     stdout (run updateRoom (hotel [number "1" 1; typed "Twin"; typed "cheap"; number "7" 7])) /\
   rooms (run updateRoom (hotel [number "1" 1; typed "Twin"; typed "cheap"; number "7" 7])) =
     [mkRoom 1 "Twin" 100%float 7 7]) /\
  (Println "无效的数量输入" ∈
     stdout (run updateRoom
               (hotel [number "1" 1; typed "Twin"; number "120" 120; typed "abc"])) /\
   rooms (run updateRoom
            (hotel [number "1" 1; typed "Twin"; number "120" 120; typed "abc"])) =
     [mkRoom 1 "Twin" 120%float 5 5]).
Proof.
  split; [|split; [|split; [|split; [|split; [|split]]]]].
  - apply (proj1 (invalid_input_handling (hotel [typed "two"]))).
    apply user_id_not_a_number; [right; reflexivity | reflexivity].
  - apply (proj1 (invalid_input_handling (hotel [number "7" 7]))).
    apply (room_missing _ _ 7); [left; reflexivity | reflexivity |].
    intros r Hr. apply list_elem_of_singleton in Hr. subst r. discriminate.
  - apply (proj1 (invalid_input_handling (hotel [typed "Suite"; typed "cheap"]))).
    apply new_price_unparsable. reflexivity.
  - apply (proj1 (invalid_input_handling (hotel [number "1" 1; typed "two"]))).
    apply (booked_quantity_unparsable _ 1 1 single);
      [reflexivity | apply list_elem_of_here | reflexivity | reflexivity].
  - destruct (proj1 (proj2 (invalid_input_handling
               (hotel [number "2" 2; typed "alicia"; typed ""; typed "1"; typed "lots"])))
               2 1%nat alice eq_refl eq_refl eq_refl)
      as (Hmsg & Hdone & _ & Hu); [discriminate | reflexivity |].
    split; [exact Hmsg|]. split; [exact Hdone | exact Hu].
  - destruct (proj1 (proj2 (proj2 (invalid_input_handling
               (hotel [number "1" 1; typed "Twin"; typed "cheap"; number "7" 7]))))
               1 0%nat single eq_refl eq_refl)
      as (Hmsg & _ & _ & Hr); [discriminate | reflexivity |].
    split; [exact Hmsg | exact Hr].
  - destruct (proj2 (proj2 (proj2 (invalid_input_handling
               (hotel [number "1" 1; typed "Twin"; number "120" 120; typed "abc"]))))
               1 0%nat single eq_refl eq_refl)
      as (Hmsg & _ & _ & Hr); [discriminate | reflexivity |].
    split; [exact Hmsg | exact Hr].
Defined.

(** ** Sessions *)

Lemma adjustTotal_available (total : Z) (room : Room) :
  Available (adjustTotal total room) =
    Z.max 0 (wrap64 (Available room + wrap64 (total - Total room))).
Proof.
  unfold adjustTotal. cbn [Available set_Available set_Total].
  destruct (Z.ltb_spec (wrap64 (Available room + wrap64 (total - Total room))) 0);
    cbn [Available set_Available]; lia.
Qed.

Lemma updatedRoom_available (w : World) (room : Room) :
  (Total (updatedRoom w room) = Total room /\
   Available (updatedRoom w room) = Available room) \/
  Available (updatedRoom w room) =
    Z.max 0 (wrap64 (Available room +
                     wrap64 (Total (updatedRoom w room) - Total room))).
Proof.
  unfold updatedRoom.
  set (r1 := if String.eqb (text (input 1 w)) "" then room
             else set_RoomType (text (input 1 w)) room).
  assert (Total r1 = Total room /\ Available r1 = Available room) as [T1 A1]
    by (subst r1; destruct (String.eqb (text (input 1 w)) ""); split; reflexivity).
  clearbody r1.
  set (r2 := if String.eqb (text (input 2 w)) "" then r1
             else match ParseFloat (input 2 w) with
                  | Some price => set_Price price r1
                  | None => r1
                  end).
  assert (Total r2 = Total room /\ Available r2 = Available room) as [T2 A2].
  { subst r2. destruct (String.eqb (text (input 2 w)) ""); [split; assumption|].
    destruct (ParseFloat (input 2 w)); split; assumption. }
  clearbody r2.
  destruct (String.eqb (text (input 3 w)) ""); [left; split; assumption|].
  destruct (Atoi (text (input 3 w))) as [t|]; [|left; split; assumption].
  right. rewrite adjustTotal_available, A2, T2.
  rewrite (proj1 (proj2 (proj2 (proj2 (adjustTotal_fields t r2))))). reflexivity.
Qed.

Lemma step_rooms (op : Op) (w : World) :
  op <> OpDeleteRoom ->
  forall i r, rooms w !! i = Some r ->
  exists r', rooms (step op w) !! i = Some r' /\ available_moves op r r'.
Proof.
  intros Hop i r Hi. unfold step.
  assert (Hsame : forall m : Cmd unit, rooms (run m w) = rooms w ->
            forall o, available_moves o r r ->
            exists r', rooms (run m w) !! i = Some r' /\ available_moves o r r').
  { intros m E o Ho. exists r. rewrite E. split; assumption. }
  destruct op as [| | | | | | | | | |customer]; cbn [operation].
  - apply Hsame; [|reflexivity].
    apply (preserves_bind rooms login (fun _ => ret tt) login_keeps_rooms
             (fun _ w0 => eq_refl)).
  - apply Hsame; [apply registerCustomer_keeps_rooms | reflexivity].
  - apply Hsame; [apply listUsers_keeps_rooms | reflexivity].
  - apply Hsame; [apply addUser_keeps_rooms | reflexivity].
  - apply Hsame; [apply updateUser_keeps_rooms | reflexivity].
  - apply Hsame; [apply deleteUser_keeps_rooms | reflexivity].
  - apply Hsame; [apply listRooms_keeps_rooms | reflexivity].
  - destruct (ParseFloat (input 1 w)) as [p|] eqn:HP.
    2: { apply Hsame; [apply (addRoom_bad_price w HP) | reflexivity]. }
    destruct (Atoi (text (input 2 w))) as [t|] eqn:HA.
    2: { apply Hsame; [apply (addRoom_bad_total w p HP HA) | reflexivity]. }
    exists r. rewrite (addRoom_added w p t HP HA).
    split; [apply lookup_app_l_Some, Hi | reflexivity].
  - destruct (Atoi (text (input 0 w))) as [id|] eqn:HA.
    2: { apply Hsame; [apply (updateRoom_bad_id w HA) | left; split; reflexivity]. }
    destruct (list_find (fun r => RoomID r = id) (rooms w)) as [[k room]|] eqn:HF.
    2: { apply Hsame; [apply (updateRoom_missing w id HA HF) | left; split; reflexivity]. }
    rewrite (updateRoom_found w id HA k room HF).
    destruct (decide (i = k)) as [->|Hne].
    + exists (updatedRoom w room). split.
      * apply list_lookup_insert_eq. eapply lookup_lt_Some, Hi.
      * pose proof (found_lookup _ _ _ _ HF) as Hk.
        assert (room = r) as -> by congruence.
        apply updatedRoom_available.
    + exists r. split; [rewrite insert_others by exact Hne; exact Hi|].
      left; split; reflexivity.
  - congruence.
  - destruct (bookRoom_outcome customer w)
      as [[_ E] | (id & k & room & q & c & _ & HF & _ & Hq & _ & _ & _ & E)].
    { apply Hsame; [exact E | cbn; lia]. }
    rewrite E. destruct (decide (i = k)) as [->|Hne].
    + eexists. split.
      * apply list_lookup_insert_eq. eapply lookup_lt_Some, Hi.
      * pose proof (found_lookup _ _ _ _ HF) as Hk.
        assert (room = r) as -> by congruence.
        cbn. pose proof (wrap64_le (Available r - q)). lia.
    + exists r. split; [rewrite insert_others by exact Hne; exact Hi | cbn; lia].
Qed.

Lemma is_deleteRoom (op : Op) : {op = OpDeleteRoom} + {op <> OpDeleteRoom}.
Proof. destruct op; first [left; reflexivity | right; discriminate]. Qed.

(** C5, as stated, fails: lowering the total in update-room lowers the
    available count, and no booking is involved. *)
Lemma updateRoom_lowers_available :
  rooms (hotel [number "1" 1; typed ""; typed ""; number "3" 3]) !! 0%nat =
    Some (mkRoom 1 "Single" 100%float 5 5) /\
  rooms (step OpUpdateRoom (hotel [number "1" 1; typed ""; typed ""; number "3" 3]))
    !! 0%nat = Some (mkRoom 1 "Single" 100%float 3 3) /\
  3 < 5 /\ (forall customer, OpUpdateRoom <> OpBookRoom customer).
Proof.
  split; [reflexivity|]. split; [reflexivity|]. split; [reflexivity|].
  intros customer. discriminate.
Qed.

(** C5, amended.  After any sequence of operations, one more operation
    that is not delete-room keeps every room in its place.  That room's
    available count goes down only in a booking or in update-room and goes
    up only in update-room.  Update-room either leaves the total and the
    available count as they are, or sets the available count to the old
    count plus the change of the total, computed in Go's wrapping [int]
    arithmetic, and to 0 when that is negative: with no overflow, to
    [max 0 (available + (new total - old total))].  Delete-room takes at
    most one record out and leaves the others as they are. *)
Theorem available_changes_only_by_booking_or_adjustment
    (ops : list Op) (op : Op) (w0 : World) :
  let w := session ops w0 in
  (op = OpDeleteRoom /\
   (rooms (step op w) = rooms w \/ exists k, rooms (step op w) = delete k (rooms w))) \/
  (op <> OpDeleteRoom /\
   forall i r, rooms w !! i = Some r ->
     exists r', rooms (step op w) !! i = Some r' /\
       (Available r' < Available r ->
          op = OpUpdateRoom \/ exists customer, op = OpBookRoom customer) /\
       (Available r < Available r' -> op = OpUpdateRoom) /\
       (op = OpUpdateRoom -> Available r' <> Available r -> 0 <= Available r') /\
       (op = OpUpdateRoom ->
          (Total r' = Total r /\ Available r' = Available r) \/
          Available r' =
            Z.max 0 (wrap64 (Available r + wrap64 (Total r' - Total r)))) /\
       (op = OpUpdateRoom ->
          0 <= Available r ->
          is_int (Total r' - Total r) ->
          is_int (Available r + (Total r' - Total r)) ->
          Available r' = Z.max 0 (Available r + (Total r' - Total r)))).
Proof.
  intros w. destruct (is_deleteRoom op) as [->|Hop].
  - left. split; [reflexivity|]. unfold step; cbn [operation].
    destruct (Atoi (text (input 0 w))) as [id|] eqn:HA.
    2: { left. apply (deleteRoom_bad_id w HA). }
    destruct (list_find (fun r => RoomID r = id) (rooms w)) as [[k room]|] eqn:HF.
    2: { left. apply (deleteRoom_missing w id HA HF). }
    destruct (deleteRoom_found w id HA k room HF) as [E|E].
    + left. exact E.
    + right. exists k. exact E.
  - right. split; [exact Hop|]. intros i r Hi.
    destruct (step_rooms op w Hop i r Hi) as (r' & Hr' & Hmove).
    exists r'. split; [exact Hr'|].
    destruct op; cbn in Hmove; try subst r';
      try (repeat split; intros; try lia; try discriminate; try congruence; eauto; fail).
    split; [left; reflexivity|]. split; [reflexivity|].
    split; [intros _ Hne; destruct Hmove as [[_ E]| ->]; [congruence | lia]|].
    split; [intros _; exact Hmove|].
    intros _ Hpos Hd Hs. destruct Hmove as [[ET EA]| ->].
    + rewrite ET, EA. lia.
    + rewrite (wrap64_id _ Hd), (wrap64_id _ Hs). reflexivity.
Qed.

Lemma available_changes_only_by_booking_or_adjustment_witness :
  exists r',
    rooms (step OpUpdateRoom (hotel [number "1" 1; typed ""; typed ""; number "3" 3]))
      !! 0%nat = Some r' /\
    Total r' = 3 /\
    Available r' = Z.max 0 (5 + (Total r' - 5)).
Proof.
  destruct (available_changes_only_by_booking_or_adjustment [] OpUpdateRoom
              (hotel [number "1" 1; typed ""; typed ""; number "3" 3]))
    as [[Hd _]|[_ H]]; [discriminate Hd|].
  destruct (H 0%nat single eq_refl) as (r' & Hr' & _ & _ & _ & _ & Hplain).
  assert (Total r' = 3) as HT.
  { cbn [session fold_left] in Hr'. vm_compute in Hr'. injection Hr' as <-. reflexivity. }
  exists r'. split; [exact Hr'|]. split; [exact HT|].
  apply (Hplain eq_refl).
  - cbn. lia.
  - rewrite HT. cbn. split; discriminate.
  - rewrite HT. cbn. split; discriminate.
Defined.

(** * Further properties of the code *)

(** ** Login *)

(** X1.  [login] changes no store.  It succeeds exactly on the first user
    whose name and password are the two lines typed, and fails, with its
    message, when no user has them. *)
Theorem login_checks_credentials (w : World) :
  (exists i u w',
     login w = (Value (Some i), w') /\ same_stores w w' /\
     users w !! i = Some u /\ credentials_match w u /\
     (forall j u0, users w !! j = Some u0 -> (j < i)%nat -> ~ credentials_match w u0) /\
     reported (Println "登录成功！") w') \/
  (exists w',
     login w = (Value None, w') /\ same_stores w w' /\
     (forall u, u ∈ users w -> ~ credentials_match w u) /\
     reported (Println "用户名或密码错误！") w').
Proof.
  destruct w as [us rs inp outp answers]. unfold login, credentials_match. crunch.
  destruct (list_find
              (fun u => Username u = text (hd emptyLine inp) /\
                        Password u = text (hd emptyLine (tail inp))) us)
    as [[i u]|] eqn:HF; crunch.
  - left. apply list_find_Some in HF. destruct HF as (Hi & Hu & Hfirst).
    exists i, u. eexists. split; [reflexivity|].
    repeat split; first [assumption | apply Hu | apply last_snoc].
  - right. apply list_find_None in HF. eexists. split; [reflexivity|].
    repeat split; [|apply last_snoc].
    intros u Hin. apply (proj1 (Forall_forall _ _) HF u Hin).
Qed.

(** ** Deleting *)

(** X2.  [deleteUser] on an ID that exists asks first: on "y" or "Y" it
    takes out the first record with that ID, and only that one, and
    reports success; on anything else it changes nothing. *)
Theorem deleteUser_asks_first (w : World) (id : Z) (i : nat) (u : User) :
  Atoi (text (input 0 w)) = Some id ->
  list_find (fun u => UserID u = id) (users w) = Some (i, u) ->
  rooms (run deleteUser w) = rooms w /\
  (text (input 1 w) = "y" \/ text (input 1 w) = "Y" ->
     users (run deleteUser w) = delete i (users w) /\
     S (length (users (run deleteUser w))) = length (users w) /\
     reported (Println "用户删除成功") (run deleteUser w)) /\
  (text (input 1 w) <> "y" -> text (input 1 w) <> "Y" ->
     users (run deleteUser w) = users w).
Proof.
  intros HA HF. split; [apply deleteUser_keeps_rooms|].
  pose proof (lookup_lt_Some _ _ _ (found_lookup _ _ _ _ HF)) as Hlen.
  split.
  - intros Hyes.
    assert (E : users (run deleteUser w) = delete i (users w) /\
                reported (Println "用户删除成功") (run deleteUser w)).
    { clear Hlen. destruct Hyes as [Hy|Hy]; start w; unfold deleteUser; execute;
        (split; [symmetry; apply delete_take_drop | apply last_snoc]). }
    destruct E as [E Hrep]. split; [exact E|]. split; [|exact Hrep].
    rewrite E, length_delete by (apply lookup_lt_is_Some; exact Hlen).
    lia.
  - intros Hn1 Hn2. apply String.eqb_neq in Hn1, Hn2. clear Hlen.
    start w. unfold deleteUser. execute. reflexivity.
Qed.

Lemma deleteUser_asks_first_witness :
  rooms (run deleteUser (hotel [number "2" 2; typed "y"])) = [single] /\
  (text (input 1 (hotel [number "2" 2; typed "y"])) = "y" \/
   text (input 1 (hotel [number "2" 2; typed "y"])) = "Y" ->
     users (run deleteUser (hotel [number "2" 2; typed "y"])) =
       delete 1%nat [admin; alice] /\
     S (length (users (run deleteUser (hotel [number "2" 2; typed "y"])))) = 2%nat /\
     reported (Println "用户删除成功") (run deleteUser (hotel [number "2" 2; typed "y"]))) /\
  (text (input 1 (hotel [number "2" 2; typed "y"])) <> "y" ->
   text (input 1 (hotel [number "2" 2; typed "y"])) <> "Y" ->
     users (run deleteUser (hotel [number "2" 2; typed "y"])) = [admin; alice]).
Proof.
  apply (deleteUser_asks_first (hotel [number "2" 2; typed "y"]) 2 1%nat alice).
  - reflexivity.
  - reflexivity.
Defined.

(** X3.  [deleteRoom] on an ID that exists asks first: on "y" or "Y" it
    takes out the first room with that ID, and only that one, and reports
    success; on anything else it changes nothing.  The users are never
    touched. *)
Theorem deleteRoom_asks_first (w : World) (id : Z) (i : nat) (room : Room) :
  Atoi (text (input 0 w)) = Some id ->
  list_find (fun r => RoomID r = id) (rooms w) = Some (i, room) ->
  users (run deleteRoom w) = users w /\
  (text (input 1 w) = "y" \/ text (input 1 w) = "Y" ->
     rooms (run deleteRoom w) = delete i (rooms w) /\
     S (length (rooms (run deleteRoom w))) = length (rooms w) /\
     reported (Println "房间删除成功") (run deleteRoom w)) /\
  (text (input 1 w) <> "y" -> text (input 1 w) <> "Y" ->
     rooms (run deleteRoom w) = rooms w).
Proof.
  intros HA HF. split; [apply deleteRoom_keeps_users|].
  pose proof (lookup_lt_Some _ _ _ (found_lookup _ _ _ _ HF)) as Hlen.
  split.
  - intros Hyes.
    assert (E : rooms (run deleteRoom w) = delete i (rooms w) /\
                reported (Println "房间删除成功") (run deleteRoom w)).
    { clear Hlen. destruct Hyes as [Hy|Hy]; start w; unfold deleteRoom; execute;
        (split; [symmetry; apply delete_take_drop | apply last_snoc]). }
    destruct E as [E Hrep]. split; [exact E|]. split; [|exact Hrep].
    rewrite E, length_delete by (apply lookup_lt_is_Some; exact Hlen).
    lia.
  - intros Hn1 Hn2. apply String.eqb_neq in Hn1, Hn2. clear Hlen.
    start w. unfold deleteRoom. execute. reflexivity.
Qed.

Lemma deleteRoom_asks_first_witness :
  users (run deleteRoom (hotel [number "1" 1; typed "n"])) = [admin; alice] /\
  (text (input 1 (hotel [number "1" 1; typed "n"])) = "y" \/
   text (input 1 (hotel [number "1" 1; typed "n"])) = "Y" ->
     rooms (run deleteRoom (hotel [number "1" 1; typed "n"])) = delete 0%nat [single] /\
     S (length (rooms (run deleteRoom (hotel [number "1" 1; typed "n"])))) = 1%nat /\
     reported (Println "房间删除成功") (run deleteRoom (hotel [number "1" 1; typed "n"]))) /\
  (text (input 1 (hotel [number "1" 1; typed "n"])) <> "y" ->
   text (input 1 (hotel [number "1" 1; typed "n"])) <> "Y" ->
     rooms (run deleteRoom (hotel [number "1" 1; typed "n"])) = [single]).
Proof.
  apply (deleteRoom_asks_first (hotel [number "1" 1; typed "n"]) 1 0%nat single).
  - reflexivity.
  - reflexivity.
Defined.

(** ** Listings *)

Lemma listUsers_spec (w : World) :
  run listUsers w =
    says (Println "----- 所有用户列表 -----" :: concat (map userListing (users w))) w.
Proof.
  unfold run, listUsers.
  unfold bind at 1, println at 1, out at 1. unfold bind at 1, getUsers at 1.
  cbn [users].
  rewrite (forEach_out userListing).
  - unfold says; simpl. rewrite <- app_assoc. reflexivity.
  - intros u w0. unfold userListing.
    destruct (String.eqb (Role u) "customer"); crunch;
      rewrite <- !app_assoc; reflexivity.
Qed.

(** X4.  The two listings read no input and change no store; [listUsers]
    prints its header and then every user in store order (type and
    balance for customers only), [listRooms] prints one line per room in
    store order, or its notice when there is no room. *)
Theorem listings_print_every_record (w : World) :
  run listUsers w =
    mkWorld (users w) (rooms w) (stdin w)
      (stdout w ++
       Println "----- 所有用户列表 -----" :: concat (map userListing (users w)))
      (disk w) /\
  run listRooms w =
    mkWorld (users w) (rooms w) (stdin w)
      (stdout w ++
       match rooms w with
       | [] => [Println "当前无房间信息"]
       | _ => Println "----- 房间列表 -----" :: concat (map roomListing (rooms w))
       end)
      (disk w).
Proof.
  split.
  - apply listUsers_spec.
  - pose proof (call_listRooms w) as E. unfold call in E.
    injection E as E. exact E.
Qed.

(** ** The menus *)

Lemma prompts_plain :
  plain mainPrompt /\ plain adminPrompt /\ plain userManagementPrompt /\
  plain roomManagementPrompt /\ plain customerPrompt.
Proof. repeat split; reflexivity. Qed.

(** One round of a menu: name the choice and the world after the prompt. *)
Ltac round Hplain w :=
  let choice := fresh "choice" in
  let w1 := fresh "w1" in
  let E := fresh "E" in
  let Hc := fresh "Hchoice" in
  let Hu := fresh "Husers" in
  let Hr := fresh "Hrooms" in
  let Hi := fresh "Hstdin" in
  destruct (Hplain w) as (Hc & Hu & Hr & Hi);
  match goal with
  | |- context [ask ?p w] => destruct (ask p w) as [choice w1] eqn:E
  | H : context [ask ?p w] |- _ => destruct (ask p w) as [choice w1] eqn:E
  end;
  cbn [fst snd] in *.

Ltac choices :=
  repeat match goal with
         | H : context [if String.eqb ?a ?b then _ else _] |- _ =>
             destruct (String.eqb a b) eqn:?
         | |- context [if String.eqb ?a ?b then _ else _] =>
             destruct (String.eqb a b) eqn:?
         end.

(** X5.  User management never changes the rooms and room management
    never changes the users, whatever is typed. *)
Theorem management_keeps_the_other_store (fuel : nat) (w w' : World) :
  (adminUserManagement fuel w = Some w' -> rooms w' = rooms w) /\
  (adminRoomManagement fuel w = Some w' -> users w' = users w).
Proof.
  destruct prompts_plain as (_ & _ & Hum & Hrm & _).
  split.
  - revert w. induction fuel as [|fuel IH]; intros w H; [discriminate|].
    cbn [adminUserManagement] in H. round Hum w. choices.
    + rewrite (IH _ H), (listUsers_keeps_rooms w1 : rooms (run _ w1) = _). exact Hrooms.
    + rewrite (IH _ H), (addUser_keeps_rooms w1 : rooms (run _ w1) = _). exact Hrooms.
    + rewrite (IH _ H), (updateUser_keeps_rooms w1 : rooms (run _ w1) = _). exact Hrooms.
    + rewrite (IH _ H), (deleteUser_keeps_rooms w1 : rooms (run _ w1) = _). exact Hrooms.
    + injection H as <-. exact Hrooms.
    + rewrite (IH _ H). exact Hrooms.
  - revert w. induction fuel as [|fuel IH]; intros w H; [discriminate|].
    cbn [adminRoomManagement] in H. round Hrm w. choices.
    + rewrite (IH _ H), (listRooms_keeps_users w1 : users (run _ w1) = _). exact Husers.
    + rewrite (IH _ H), (addRoom_keeps_users w1 : users (run _ w1) = _). exact Husers.
    + rewrite (IH _ H), (updateRoom_keeps_users w1 : users (run _ w1) = _). exact Husers.
    + rewrite (IH _ H), (deleteRoom_keeps_users w1 : users (run _ w1) = _). exact Husers.
    + injection H as <-. exact Husers.
    + rewrite (IH _ H). exact Husers.
Qed.

Lemma management_keeps_the_other_store_witness :
  let w := hotel [number "4" 4; number "2" 2; typed "y"; number "5" 5] in
  rooms (default w (adminUserManagement 3 w)) = rooms w /\
  users (default w (adminRoomManagement 3 w)) = users w.
Proof.
  intros w. split.
  - apply (management_keeps_the_other_store 3 w). vm_compute. reflexivity.
  - apply (management_keeps_the_other_store 3 w). vm_compute. reflexivity.
Defined.

(** ** End of input *)

Lemma ask_end (prompt : Cmd Line) (w : World) :
  plain prompt -> stdin w = [] ->
  text (ask prompt w).1 = "" /\ stdin (ask prompt w).2 = [].
Proof.
  intros Hp H. destruct (Hp w) as (-> & _ & _ & ->).
  unfold input, skip. rewrite H. split; reflexivity.
Qed.

(** At the end of the input a round of a menu is an invalid choice. *)
Ltac spin Hplain IH :=
  match goal with
  | H : stdin ?w = [] |- _ =>
      destruct (ask_end _ w Hplain H) as [Hchoice Hrest];
      match goal with
      | |- context [ask ?p w] => destruct (ask p w) as [choice w1]
      end;
      cbn [fst snd] in Hchoice, Hrest; rewrite Hchoice;
      cbn [String.eqb Ascii.eqb Bool.eqb]; apply IH; exact Hrest
  end.

Lemma customerMenu_end (fuel c : nat) (w : World) :
  stdin w = [] -> customerMenu fuel c w = None.
Proof.
  revert w. induction fuel as [|fuel IH]; intros w H; [reflexivity|].
  cbn [customerMenu]. spin (proj2 (proj2 (proj2 (proj2 prompts_plain)))) IH.
Qed.

Lemma adminUserManagement_end (fuel : nat) (w : World) :
  stdin w = [] -> adminUserManagement fuel w = None.
Proof.
  revert w. induction fuel as [|fuel IH]; intros w H; [reflexivity|].
  cbn [adminUserManagement]. spin (proj1 (proj2 (proj2 prompts_plain))) IH.
Qed.

Lemma adminRoomManagement_end (fuel : nat) (w : World) :
  stdin w = [] -> adminRoomManagement fuel w = None.
Proof.
  revert w. induction fuel as [|fuel IH]; intros w H; [reflexivity|].
  cbn [adminRoomManagement]. spin (proj1 (proj2 (proj2 (proj2 prompts_plain)))) IH.
Qed.

Lemma adminMenu_end (fuel : nat) (w : World) :
  stdin w = [] -> adminMenu fuel w = None.
Proof.
  revert w. induction fuel as [|fuel IH]; intros w H; [reflexivity|].
  cbn [adminMenu]. spin (proj1 (proj2 prompts_plain)) IH.
Qed.

Lemma mainLoop_end (fuel : nat) (w : World) :
  stdin w = [] -> mainLoop fuel w = None.
Proof.
  revert w. induction fuel as [|fuel IH]; intros w H; [reflexivity|].
  cbn [mainLoop]. spin (proj1 prompts_plain) IH.
Qed.

(** X6.  Once the input has run out no menu ever returns: [readLine]
    yields the empty string, which every menu takes for an invalid choice,
    so each loop goes round for ever, whatever the stores hold. *)
Theorem menus_never_return_at_end_of_input (fuel c : nat) (w : World) :
  stdin w = [] ->
  mainLoop fuel w = None /\
  adminMenu fuel w = None /\
  adminUserManagement fuel w = None /\
  adminRoomManagement fuel w = None /\
  customerMenu fuel c w = None.
Proof.
  intros H. repeat split.
  - apply mainLoop_end, H.
  - apply adminMenu_end, H.
  - apply adminUserManagement_end, H.
  - apply adminRoomManagement_end, H.
  - apply customerMenu_end, H.
Qed.

Lemma menus_never_return_at_end_of_input_witness :
  mainLoop 7 (hotel []) = None /\
  adminMenu 7 (hotel []) = None /\
  adminUserManagement 7 (hotel []) = None /\
  adminRoomManagement 7 (hotel []) = None /\
  customerMenu 7 1 (hotel []) = None.
Proof.
  apply (menus_never_return_at_end_of_input 7 1 (hotel [])). reflexivity.
Defined.

(** ** Commands that keep the disk working *)













(** ** Leaving a menu *)






(** ** What a customer can change *)

Lemma only_balance_refl (u : User) : only_balance u u.
Proof. destruct u; reflexivity. Qed.

Lemma only_balance_trans (u u' u'' : User) :
  only_balance u u' -> only_balance u' u'' -> only_balance u u''.
Proof.
  destruct u, u', u''. unfold only_balance, set_Balance. cbn.
  intros [= -> -> -> -> ->] [= -> -> -> -> ->]. reflexivity.
Qed.

Lemma only_balance_role (u u' : User) : only_balance u u' -> Role u' = Role u.
Proof. unfold only_balance. intros ->. destruct u; reflexivity. Qed.

Lemma only_available_refl (r : Room) : only_available r r.
Proof. split; [destruct r; reflexivity | lia]. Qed.

Lemma only_available_trans (r r' r'' : Room) :
  only_available r r' -> only_available r' r'' -> only_available r r''.
Proof.
  destruct r, r', r''. unfold only_available, set_Available. cbn.
  intros [[= -> -> -> ->] L1] [[= -> -> -> ->] L2]. split; [reflexivity | lia].
Qed.

Lemma related_trans {A} (R : A -> A -> Prop) (l k m : list A) :
  (forall x y z, R x y -> R y z -> R x z) ->
  Forall2 R l k -> Forall2 R k m -> Forall2 R l m.
Proof.
  intros HR H. revert m. induction H as [|x y l k Hxy H IH]; intros m H2;
    inversion H2; subst; constructor; eauto.
Qed.

Lemma customer_session_same (c : nat) (w w' : World) :
  users w' = users w -> rooms w' = rooms w -> customer_session c w w'.
Proof.
  intros Hu Hr. unfold customer_session. rewrite Hu, Hr. repeat split.
  - intros j u H. exists u. repeat split; [exact H | apply only_balance_refl].
  - apply Forall_Forall2_diag, Forall_forall. intros r _. apply only_available_refl.
Qed.

Lemma customer_session_trans (c : nat) (w w' w'' : World) :
  customer_session c w w' -> customer_session c w' w'' -> customer_session c w w''.
Proof.
  intros (L1 & U1 & R1) (L2 & U2 & R2). repeat split.
  - congruence.
  - intros j u H. destruct (U1 j u H) as (u' & H' & B1 & O1).
    destruct (U2 j u' H') as (u'' & H'' & B2 & O2).
    exists u''. repeat split; [exact H'' | eapply only_balance_trans; eassumption |].
    intros Hj. rewrite (O2 Hj). apply (O1 Hj).
  - eapply related_trans; [|exact R1|exact R2].
    intros r r' r''. apply only_available_trans.
Qed.

Lemma insert_related {A} (R : A -> A -> Prop) (l : list A) (i : nat) (x y : A) :
  (forall a, R a a) -> l !! i = Some x -> R x y -> Forall2 R l (<[i:=y]> l).
Proof.
  intros Hrefl. revert i. induction l as [|a l IH]; intros [|i] H Hxy;
    try discriminate; cbn in *.
  - injection H as ->. constructor; [exact Hxy|].
    apply Forall_Forall2_diag, Forall_forall. intros; apply Hrefl.
  - constructor; [apply Hrefl | apply IH; assumption].
Qed.

Lemma bookRoom_session (c : nat) (w : World) :
  customer_session c w (run (bookRoom c) w).
Proof.
  destruct (bookRoom_outcome c w) as [[Hu Hr]|
    (id & i & room & q & cu & _ & HF & _ & [Hq Ha] & Hc & _ & Hu & Hr)].
  - apply customer_session_same; assumption.
  - unfold customer_session. rewrite Hu, Hr. repeat split.
    + apply length_insert.
    + intros j u H. destruct (decide (j = c)) as [->|Hj].
      * rewrite list_lookup_insert_eq by (eapply lookup_lt_Some; eassumption).
        eexists. split; [reflexivity|]. split; [|congruence].
        assert (u = cu) as -> by congruence.
        destruct cu; reflexivity.
      * exists u. rewrite list_lookup_insert_ne by congruence.
        repeat split; [exact H | apply only_balance_refl].
    + apply found_lookup in HF.
      eapply insert_related; [apply only_available_refl | exact HF |].
      split; [destruct room; reflexivity|].
      cbn [Available set_Available].
      pose proof (wrap64_le (Available room - q)). lia.
Qed.

Lemma customerMenu_session (fuel c : nat) (w w' : World) :
  customerMenu fuel c w = Some w' -> customer_session c w w'.
Proof.
  destruct prompts_plain as (_ & _ & _ & _ & Hp).
  revert w. induction fuel as [|fuel IH]; intros w H; [discriminate|].
  cbn [customerMenu] in H. round Hp w. choices.
  - apply IH in H. eapply customer_session_trans; [|exact H].
    apply customer_session_same.
    + rewrite (listRooms_keeps_users w1 : users (run _ w1) = _). exact Husers.
    + rewrite (listRooms_keeps_rooms w1 : rooms (run _ w1) = _). exact Hrooms.
  - apply IH in H. eapply customer_session_trans; [|exact H].
    eapply customer_session_trans; [|apply bookRoom_session].
    apply customer_session_same; assumption.
  - apply IH in H. eapply customer_session_trans; [|exact H].
    apply customer_session_same.
    + rewrite <- Husers. unfold run, showBalance, bind, derefUser.
      destruct (users w1 !! c); reflexivity.
    + rewrite <- Hrooms. unfold run, showBalance, bind, derefUser.
      destruct (users w1 !! c); reflexivity.
  - injection H as <-. apply customer_session_same.
    + rewrite <- Husers. unfold run, bind, println, out. cbn [fst snd].
      rewrite call_saveUsers. reflexivity.
    + rewrite <- Hrooms. unfold run, bind, println, out. cbn [fst snd].
      rewrite call_saveUsers. reflexivity.
  - apply IH in H. eapply customer_session_trans; [|exact H].
    apply customer_session_same; assumption.
Qed.

(** X8.  Whatever a logged-in customer types, the session changes no
    account but the balance of the customer's own, adds and removes no
    user and no room, and changes a room only by lowering its available
    count. *)
Theorem customer_changes_only_own_balance (fuel c : nat) (w w' : World) :
  customerMenu fuel c w = Some w' ->
  length (users w') = length (users w) /\
  (forall j u, users w !! j = Some u ->
     exists u', users w' !! j = Some u' /\
                u' = set_Balance (Balance u') u /\ (j <> c -> u' = u)) /\
  Forall2 (fun r r' => r' = set_Available (Available r') r /\
                       Available r' <= Available r)
          (rooms w) (rooms w').
Proof. apply customerMenu_session. Qed.

Lemma customer_changes_only_own_balance_witness :
  let w := hotel [number "2" 2; number "1" 1; number "2" 2; number "4" 4] in
  let w' := default w (customerMenu 3 1 w) in
  length (users w') = length (users w) /\
  (forall j u, users w !! j = Some u ->
     exists u', users w' !! j = Some u' /\
                u' = set_Balance (Balance u') u /\ (j <> 1%nat -> u' = u)) /\
  Forall2 (fun r r' => r' = set_Available (Available r') r /\
                       Available r' <= Available r)
          (rooms w) (rooms w').
Proof.
  intros w w'.
  apply (customer_changes_only_own_balance 3 1 w w'). vm_compute. reflexivity.
Defined.

(** ** A hotel without administrators *)

Lemma accounts_kept_same (us us' : list User) : us' = us -> accounts_kept us us'.
Proof.
  intros -> j u H. exists u. split; [exact H | apply only_balance_refl].
Qed.

Lemma accounts_kept_trans (us us' us'' : list User) :
  accounts_kept us us' -> accounts_kept us' us'' -> accounts_kept us us''.
Proof.
  intros H1 H2 j u H. destruct (H1 j u H) as (u' & H' & B1).
  destruct (H2 j u' H') as (u'' & H'' & B2).
  exists u''. split; [exact H'' | eapply only_balance_trans; eassumption].
Qed.

Lemma rooms_kept_same (rs rs' : list Room) :
  rs' = rs -> Forall2 only_available rs rs'.
Proof.
  intros ->. apply Forall_Forall2_diag, Forall_forall.
  intros r _. apply only_available_refl.
Qed.

Lemma customer_session_no_admin (c : nat) (w w' : World) :
  customer_session c w w' -> no_admin (users w) -> no_admin (users w').
Proof.
  intros (HL & HU & _) Hno. apply Forall_lookup. intros j u' H'.
  destruct (users w !! j) as [u|] eqn:H.
  - destruct (HU j u H) as (u'' & H'' & B & _).
    assert (u'' = u') as -> by congruence.
    rewrite (only_balance_role _ _ B).
    apply (proj1 (Forall_lookup _ _) Hno j u H).
  - apply lookup_ge_None in H. apply lookup_lt_Some in H'. lia.
Qed.

Lemma registerCustomer_adds_customer (w : World) :
  users (run registerCustomer w) = users w \/
  exists u, users (run registerCustomer w) = users w ++ [u] /\ Role u = "customer".
Proof.
  destruct (nameTaken (text (input 0 w)) (users w)) eqn:HT.
  - left. apply (registerCustomer_existing w HT).
  - right. eexists. split; [apply (registerCustomer_new w HT) | reflexivity].
Qed.

(** X9.  As long as no account has the role admin, nothing typed at the
    main menu creates one: when [main] returns every account is still in
    its place with at most its balance changed, new accounts are
    customers, no room was added or removed and a room differs only by a
    lower available count. *)
Theorem without_admin_nothing_but_bookings (fuel : nat) (w w' : World) :
  no_admin (users w) -> mainLoop fuel w = Some w' ->
  no_admin (users w') /\ accounts_kept (users w) (users w') /\
  Forall2 only_available (rooms w) (rooms w').
Proof.
  destruct prompts_plain as (Hp & _).
  revert w. induction fuel as [|fuel IH]; intros w Hno H; [discriminate|].
  cbn [mainLoop] in H. round Hp w.
  assert (no_admin (users w1)) as Hno1 by (rewrite Husers; exact Hno).
  assert (forall w2,
            no_admin (users w2) ->
            accounts_kept (users w1) (users w2) ->
            Forall2 only_available (rooms w1) (rooms w2) ->
            mainLoop fuel w2 = Some w' ->
            no_admin (users w') /\ accounts_kept (users w) (users w') /\
            Forall2 only_available (rooms w) (rooms w')) as Hnext.
  { intros w2 Hno2 HA HR H2. destruct (IH w2 Hno2 H2) as (N & A & R).
    rewrite <- Husers, <- Hrooms. repeat split; [exact N | |].
    - eapply accounts_kept_trans; eassumption.
    - eapply related_trans; [|eassumption|eassumption].
      intros r r' r''. apply only_available_trans. }
  assert (forall w2, users w2 = users w1 -> rooms w2 = rooms w1 ->
            mainLoop fuel w2 = Some w' ->
            no_admin (users w') /\ accounts_kept (users w) (users w') /\
            Forall2 only_available (rooms w) (rooms w')) as Hsame.
  { intros w2 Hu2 Hr2. apply Hnext.
    - rewrite Hu2; exact Hno1.
    - apply accounts_kept_same, Hu2.
    - apply rooms_kept_same, Hr2. }
  destruct (String.eqb (text choice) "1") eqn:E1.
  { pose proof (login_keeps_users w1) as LU. pose proof (login_keeps_rooms w1) as LR.
    destruct (login w1) as [r w2]. cbn [snd] in LU, LR.
    destruct r as [[i|]|]; try (apply (Hsame w2 LU LR H)).
    destruct (users w2 !! i) as [user|] eqn:Hi; [|apply (Hsame w2 LU LR H)].
    destruct (String.eqb (Role user) "admin") eqn:Ha.
    { exfalso. apply String.eqb_eq in Ha. rewrite LU in Hi.
      apply (proj1 (Forall_lookup _ _) Hno1 i user Hi Ha). }
    destruct (String.eqb (Role user) "customer"); [|apply (Hsame w2 LU LR H)].
    destruct (customerMenu fuel i w2) as [w3|] eqn:HC; [|discriminate].
    apply customerMenu_session in HC.
    rewrite <- LU in Hno1.
    pose proof (customer_session_no_admin _ _ _ HC Hno1) as Hno3.
    destruct HC as (_ & HU & HR). rewrite LU in HU. rewrite LR in HR.
    apply (Hnext w3 Hno3); [|exact HR|exact H].
    intros j u Hj. destruct (HU j u Hj) as (u' & H' & B & _). eauto. }
  destruct (String.eqb (text choice) "2") eqn:E2.
  { pose proof (registerCustomer_keeps_rooms w1 : rooms (run _ w1) = _) as RR.
    destruct (registerCustomer_adds_customer w1) as [RU|(u & RU & Hrole)].
    - apply (Hsame _ RU RR H).
    - apply (Hnext (run registerCustomer w1)); [| |apply rooms_kept_same, RR|exact H].
      + rewrite RU. apply Forall_app. split; [exact Hno1|].
        constructor; [|constructor]. rewrite Hrole. discriminate.
      + intros j u0 Hj. exists u0. rewrite RU.
        split; [apply lookup_app_l_Some, Hj | apply only_balance_refl]. }
  destruct (String.eqb (text choice) "3") eqn:E3.
  { injection H as <-. change (users (run (println "退出系统") w1)) with (users w1).
    change (rooms (run (println "退出系统") w1)) with (rooms w1).
    rewrite Husers, Hrooms. repeat split; [exact Hno | |].
    - apply accounts_kept_same; reflexivity.
    - apply rooms_kept_same; reflexivity. }
  apply (Hsame (run (println "无效的选项，请重试。") w1)); [reflexivity | reflexivity | exact H].
Qed.

Lemma without_admin_nothing_but_bookings_witness :
  let w := mkWorld [alice] [single]
             [number "2" 2; typed "bob"; typed "pw"; number "1" 1;
              number "1" 1; typed "bob"; typed "pw";
              number "2" 2; number "1" 1; number "3" 3; number "4" 4;
              number "3" 3] [] [] in
  let w' := default w (mainLoop 9 w) in
  no_admin (users w') /\ accounts_kept (users w) (users w') /\
  Forall2 only_available (rooms w) (rooms w').
Proof.
  intros w w'. apply (without_admin_nothing_but_bookings 9 w w').
  - repeat constructor. discriminate.
  - vm_compute. reflexivity.
Defined.

(** ** The shape of a step *)

Lemma updateUser_cases (w : World) :
  users (run updateUser w) = users w \/
  exists i u, users w !! i = Some u /\
    users (run updateUser w) = <[i:=updatedUser w u]> (users w).
Proof.
  destruct (Atoi (text (input 0 w))) as [id|] eqn:HA;
    [|left; apply (updateUser_bad_id w HA)].
  destruct (list_find (fun u => UserID u = id) (users w)) as [[i u]|] eqn:HF;
    [|left; apply (updateUser_missing w id HA HF)].
  right. exists i, u. split; [apply (found_lookup _ _ _ _ HF)|].
  apply (updateUser_found w id HA i u HF).
Qed.

Lemma updateRoom_cases (w : World) :
  rooms (run updateRoom w) = rooms w \/
  exists i r, rooms w !! i = Some r /\
    rooms (run updateRoom w) = <[i:=updatedRoom w r]> (rooms w).
Proof.
  destruct (Atoi (text (input 0 w))) as [id|] eqn:HA;
    [|left; apply (updateRoom_bad_id w HA)].
  destruct (list_find (fun r => RoomID r = id) (rooms w)) as [[i r]|] eqn:HF;
    [|left; apply (updateRoom_missing w id HA HF)].
  right. exists i, r. split; [apply (found_lookup _ _ _ _ HF)|].
  apply (updateRoom_found w id HA i r HF).
Qed.

Lemma deleteUser_cases (w : World) :
  users (run deleteUser w) = users w \/
  exists i, users (run deleteUser w) = delete i (users w).
Proof.
  destruct (Atoi (text (input 0 w))) as [id|] eqn:HA;
    [|left; apply (deleteUser_bad_id w HA)].
  destruct (list_find (fun u => UserID u = id) (users w)) as [[i u]|] eqn:HF;
    [|left; apply (deleteUser_missing w id HA HF)].
  destruct (deleteUser_found w id HA i u HF) as [E|E]; [left|right; exists i]; exact E.
Qed.

Lemma deleteRoom_cases (w : World) :
  rooms (run deleteRoom w) = rooms w \/
  exists i, rooms (run deleteRoom w) = delete i (rooms w).
Proof.
  destruct (Atoi (text (input 0 w))) as [id|] eqn:HA;
    [|left; apply (deleteRoom_bad_id w HA)].
  destruct (list_find (fun r => RoomID r = id) (rooms w)) as [[i r]|] eqn:HF;
    [|left; apply (deleteRoom_missing w id HA HF)].
  destruct (deleteRoom_found w id HA i r HF) as [E|E]; [left|right; exists i]; exact E.
Qed.

Lemma addUser_cases (w : World) :
  users (run addUser w) = users w \/
  exists u, users (run addUser w) = users w ++ [u] /\
    UserID u = getNextUserID (users w) /\
    nameTaken (Username u) (users w) = false /\
    (Role u = "admin" \/ Role u = "customer").
Proof.
  destruct (nameTaken (text (input 0 w)) (users w)) eqn:E.
  { left. apply (addUser_existing w E). }
  destruct (String.eqb_spec (text (input 2 w)) "1") as [H1|H1].
  { right. eexists. split; [apply (addUser_admin w E H1)|].
    repeat split; [exact E | left; reflexivity]. }
  destruct (String.eqb_spec (text (input 2 w)) "2") as [H2|H2].
  { right. eexists. split; [apply (addUser_customer w E H2)|].
    repeat split; [exact E | right; reflexivity]. }
  left. apply (addUser_bad_role w E H1 H2).
Qed.

Lemma registerCustomer_cases (w : World) :
  users (run registerCustomer w) = users w \/
  exists u, users (run registerCustomer w) = users w ++ [u] /\
    UserID u = getNextUserID (users w) /\
    nameTaken (Username u) (users w) = false /\
    (Role u = "admin" \/ Role u = "customer").
Proof.
  destruct (nameTaken (text (input 0 w)) (users w)) eqn:E.
  - left. apply (registerCustomer_existing w E).
  - right. eexists. split; [apply (registerCustomer_new w E)|].
    repeat split; [exact E | right; reflexivity].
Qed.

Lemma addRoom_cases (w : World) :
  rooms (run addRoom w) = rooms w \/
  exists r, rooms (run addRoom w) = rooms w ++ [r] /\
    RoomID r = getNextRoomID (rooms w).
Proof.
  destruct (ParseFloat (input 1 w)) as [p|] eqn:HP.
  2: { left. apply (addRoom_bad_price w HP). }
  destruct (Atoi (text (input 2 w))) as [t|] eqn:HA.
  2: { left. apply (addRoom_bad_total w p HP HA). }
  right. eexists. split; [apply (addRoom_added w p t HP HA) | reflexivity].
Qed.

Lemma login_step_users (w : World) : users (step OpLogin w) = users w.
Proof.
  apply (preserves_bind users login (fun _ => ret tt) login_keeps_users
           (fun _ w0 => eq_refl)).
Qed.

Lemma login_step_rooms (w : World) : rooms (step OpLogin w) = rooms w.
Proof.
  apply (preserves_bind rooms login (fun _ => ret tt) login_keeps_rooms
           (fun _ w0 => eq_refl)).
Qed.

(** What one operation does to the list of users: nothing, one record
    appended under a fresh ID and an unused name, one record replaced by
    one of the same ID and role, or one record taken out. *)
Lemma step_users (op : Op) (w : World) :
  users (step op w) = users w \/
  (exists u, users (step op w) = users w ++ [u] /\
     UserID u = getNextUserID (users w) /\
     nameTaken (Username u) (users w) = false /\
     (Role u = "admin" \/ Role u = "customer")) \/
  (exists i u u', users w !! i = Some u /\
     users (step op w) = <[i:=u']> (users w) /\
     UserID u' = UserID u /\ Role u' = Role u /\
     (op <> OpUpdateUser -> Username u' = Username u)) \/
  (exists i, users (step op w) = delete i (users w)).
Proof.
  unfold step. destruct op as [| | | | | | | | | |customer]; cbn [operation].
  - left. apply login_step_users.
  - destruct (registerCustomer_cases w) as [E|E]; [left|right; left]; exact E.
  - left. apply listUsers_keeps_users.
  - destruct (addUser_cases w) as [E|E]; [left|right; left]; exact E.
  - destruct (updateUser_cases w) as [E|(i & u & Hi & E)]; [left; exact E|].
    right; right; left. exists i, u, (updatedUser w u).
    repeat split; try assumption; try apply updatedUser_keeps. congruence.
  - destruct (deleteUser_cases w) as [E|E]; [left|right; right; right]; exact E.
  - left. apply listRooms_keeps_users.
  - left. apply addRoom_keeps_users.
  - left. apply updateRoom_keeps_users.
  - left. apply deleteRoom_keeps_users.
  - destruct (bookRoom_outcome customer w)
      as [[E _] | (id & k & room & q & c & _ & _ & _ & _ & Hc & _ & E & _)].
    { left. exact E. }
    right; right; left. exists customer, c. eexists.
    split; [exact Hc|]. split; [exact E|]. repeat split.
Qed.

Lemma step_rooms_shape (op : Op) (w : World) :
  rooms (step op w) = rooms w \/
  (exists r, rooms (step op w) = rooms w ++ [r] /\
     RoomID r = getNextRoomID (rooms w)) \/
  (exists i r r', rooms w !! i = Some r /\
     rooms (step op w) = <[i:=r']> (rooms w) /\ RoomID r' = RoomID r) \/
  (exists i, rooms (step op w) = delete i (rooms w)).
Proof.
  unfold step. destruct op as [| | | | | | | | | |customer]; cbn [operation].
  - left. apply login_step_rooms.
  - left. apply registerCustomer_keeps_rooms.
  - left. apply listUsers_keeps_rooms.
  - left. apply addUser_keeps_rooms.
  - left. apply updateUser_keeps_rooms.
  - left. apply deleteUser_keeps_rooms.
  - left. apply listRooms_keeps_rooms.
  - destruct (addRoom_cases w) as [E|E]; [left|right; left]; exact E.
  - destruct (updateRoom_cases w) as [E|(i & r & Hi & E)]; [left; exact E|].
    right; right; left. exists i, r, (updatedRoom w r).
    repeat split; try assumption. apply updatedRoom_keeps.
  - destruct (deleteRoom_cases w) as [E|E]; [left|right; right; right]; exact E.
  - destruct (bookRoom_outcome customer w)
      as [[_ E] | (id & k & room & q & c & _ & HF & _ & _ & _ & _ & _ & E)].
    { left. exact E. }
    right; right; left. exists k, room. eexists.
    split; [apply (found_lookup _ _ _ _ HF)|]. split; [exact E | reflexivity].
Qed.

Lemma insert_same_image {A B} (f : A -> B) (l : list A) (i : nat) (x y : A) :
  l !! i = Some x -> f y = f x -> f <$> <[i:=y]> l = f <$> l.
Proof.
  intros H E. rewrite list_fmap_insert, E.
  apply list_insert_id. rewrite list_lookup_fmap, H. reflexivity.
Qed.

(** ** Identity of a record *)

(** X10.  An update never changes who a record is: [updateUser] keeps the
    ID and the role of every account, [updateRoom] keeps the ID of every
    room, and neither adds or removes a record, whatever is typed. *)
Theorem updates_keep_identity (w : World) :
  UserID <$> users (run updateUser w) = UserID <$> users w /\
  Role <$> users (run updateUser w) = Role <$> users w /\
  RoomID <$> rooms (run updateRoom w) = RoomID <$> rooms w.
Proof.
  destruct (updateUser_cases w) as [->|(i & u & Hi & ->)];
    destruct (updateRoom_cases w) as [->|(k & r & Hk & ->)];
    repeat split;
    try (apply insert_same_image with (x := u); [exact Hi|apply updatedUser_keeps]);
    try (apply insert_same_image with (x := r); [exact Hk|apply updatedRoom_keeps]).
Qed.

(** ** Unique IDs *)

Lemma NoDup_image_delete {A B} (f : A -> B) (l : list A) (i : nat) :
  NoDup (f <$> l) -> NoDup (f <$> delete i l).
Proof.
  intros H. rewrite list_fmap_delete. exact (sublist_NoDup _ _ H (sublist_delete _ _)).
Qed.

Lemma NoDup_image_snoc {A B} (f : A -> B) (l : list A) (x : A) :
  NoDup (f <$> l) -> (forall y, y ∈ f <$> l -> y <> f x) ->
  NoDup (f <$> (l ++ [x])).
Proof.
  intros H Hx. rewrite fmap_app. apply NoDup_app. split; [exact H|].
  split; [|apply NoDup_singleton].
  intros y Hy Hin. apply list_elem_of_singleton in Hin. exact (Hx y Hy Hin).
Qed.

(** X11.  IDs stay unique: when no two users share an ID and no two rooms
    do, and every ID is below the largest [int], the same holds after any
    operation, whatever is typed. *)
Theorem ids_stay_unique (op : Op) (w : World) :
  Forall (fun u => UserID u < int_max) (users w) ->
  Forall (fun r => RoomID r < int_max) (rooms w) ->
  NoDup (UserID <$> users w) ->
  NoDup (RoomID <$> rooms w) ->
  NoDup (UserID <$> users (step op w)) /\
  NoDup (RoomID <$> rooms (step op w)).
Proof.
  intros Bu Br Nu Nr. split.
  - destruct (step_users op w)
      as [->|[(u & -> & Hid & _)|[(i & u & u' & Hi & -> & Hid & _)|(i & ->)]]].
    + exact Nu.
    + apply NoDup_image_snoc; [exact Nu|].
      rewrite Hid. apply (next_is_fresh UserID), Bu.
    + rewrite (insert_same_image UserID _ _ u u' Hi Hid). exact Nu.
    + apply NoDup_image_delete, Nu.
  - destruct (step_rooms_shape op w)
      as [->|[(r & -> & Hid)|[(i & r & r' & Hi & -> & Hid)|(i & ->)]]].
    + exact Nr.
    + apply NoDup_image_snoc; [exact Nr|].
      rewrite Hid. apply (next_is_fresh RoomID), Br.
    + rewrite (insert_same_image RoomID _ _ r r' Hi Hid). exact Nr.
    + apply NoDup_image_delete, Nr.
Qed.

Lemma ids_stay_unique_witness :
  NoDup (UserID <$> users (step OpAddUser
                             (hotel [typed "bob"; typed "pw"; number "1" 1]))) /\
  NoDup (RoomID <$> rooms (step OpAddUser
                             (hotel [typed "bob"; typed "pw"; number "1" 1]))).
Proof.
  apply (ids_stay_unique OpAddUser (hotel [typed "bob"; typed "pw"; number "1" 1])).
  - repeat constructor.
  - repeat constructor.
  - apply (bool_decide_unpack _). vm_compute. exact I.
  - apply (bool_decide_unpack _). vm_compute. exact I.
Defined.

(** ** Roles and names *)

(** X12.  Roles stay valid: when every account is an admin or a customer,
    the same holds after any operation.  [addUser] refuses any other role,
    [registerCustomer] makes customers, and no update touches the role. *)
Theorem roles_stay_valid (op : Op) (w : World) :
  Forall (fun u => Role u = "admin" \/ Role u = "customer") (users w) ->
  Forall (fun u => Role u = "admin" \/ Role u = "customer") (users (step op w)).
Proof.
  intros H.
  destruct (step_users op w)
    as [->|[(u & -> & _ & _ & Hr)|[(i & u & u' & Hi & -> & _ & Hr & _)|(i & ->)]]].
  - exact H.
  - apply Forall_app. split; [exact H | constructor; [exact Hr | constructor]].
  - apply Forall_insert; [exact H|]. rewrite Hr.
    apply (proj1 (Forall_lookup _ _) H i u Hi).
  - apply Forall_delete, H.
Qed.

Lemma roles_stay_valid_witness :
  Forall (fun u => Role u = "admin" \/ Role u = "customer")
         (users (step OpAddUser (hotel [typed "bob"; typed "pw"; number "7" 7]))).
Proof.
  apply (roles_stay_valid OpAddUser (hotel [typed "bob"; typed "pw"; number "7" 7])).
  constructor; [left; reflexivity|].
  constructor; [right; reflexivity | constructor].
Defined.

Lemma nameTaken_false (name : string) (us : list User) :
  nameTaken name us = false -> forall y, y ∈ Username <$> us -> y <> name.
Proof.
  intros H y Hy <-. apply list_elem_of_fmap in Hy. destruct Hy as (u & -> & Hu).
  rewrite (nameTaken_true (Username u) us) in H; [discriminate|].
  exists u. split; [exact Hu | reflexivity].
Qed.

(** X13.  Every operation other than update-user keeps user names unique:
    the two creation paths refuse a name in use, and booking and deletion
    leave names alone. *)
Theorem names_stay_unique (op : Op) (w : World) :
  op <> OpUpdateUser ->
  NoDup (Username <$> users w) ->
  NoDup (Username <$> users (step op w)).
Proof.
  intros Hop H.
  destruct (step_users op w)
    as [->|[(u & -> & _ & Hn & _)|[(i & u & u' & Hi & -> & _ & _ & Hk)|(i & ->)]]].
  - exact H.
  - apply NoDup_image_snoc; [exact H | apply nameTaken_false, Hn].
  - rewrite (insert_same_image Username _ _ u u' Hi (Hk Hop)). exact H.
  - apply NoDup_image_delete, H.
Qed.

Lemma names_stay_unique_witness :
  NoDup (Username <$>
           users (step OpRegisterCustomer
                    (hotel [typed "bob"; typed "pw"; number "1" 1]))).
Proof.
  apply (names_stay_unique OpRegisterCustomer
           (hotel [typed "bob"; typed "pw"; number "1" 1])).
  - discriminate.
  - apply (bool_decide_unpack _). vm_compute. exact I.
Defined.

(** ** Registering, then logging in *)

Lemma login_finds (w : World) :
  (login w).1 =
    Value (fst <$> list_find (fun u => Username u = text (input 0 w) /\
                                       Password u = text (input 1 w)) (users w)).
Proof.
  destruct w as [us rs inp outp answers]. unfold login. crunch.
  destruct (list_find _ us) as [[i u]|]; reflexivity.
Qed.

Lemma registerCustomer_reads_three (w : World) :
  nameTaken (text (input 0 w)) (users w) = false ->
  stdin (run registerCustomer w) = skip 3 (stdin w).
Proof.
  intros E. start w. unfold registerCustomer. execute. enter. reflexivity.
Qed.

(** X14.  A customer who has just registered can log in: when the name is
    free and the next two lines typed repeat the name and the password,
    [login] succeeds and hands back the new account, a customer with a
    balance of 1000. *)
Theorem registered_customer_can_log_in (w : World) :
  nameTaken (text (input 0 w)) (users w) = false ->
  text (input 3 w) = text (input 0 w) ->
  text (input 4 w) = text (input 1 w) ->
  exists u,
    (login (run registerCustomer w)).1 = Value (Some (length (users w))) /\
    users (run registerCustomer w) !! length (users w) = Some u /\
    Username u = text (input 0 w) /\ Password u = text (input 1 w) /\
    Role u = "customer" /\ Balance u = 1000%float.
Proof.
  intros E Hname Hpw.
  pose proof (registerCustomer_new w E) as HU.
  pose proof (registerCustomer_reads_three w E) as HI.
  eexists. split; [|split; [rewrite HU; apply list_lookup_middle; reflexivity|]].
  2: repeat split.
  rewrite login_finds. unfold input. rewrite HI.
  change (hd emptyLine (skip 0 (skip 3 (stdin w)))) with (input 3 w).
  change (hd emptyLine (skip 1 (skip 3 (stdin w)))) with (input 4 w).
  rewrite Hname, Hpw, HU.
  match goal with
  | |- Value (fst <$> ?f) = _ => destruct f as [[i u]|] eqn:HF
  end.
  - apply list_find_Some in HF. destruct HF as (Hi & Hu & Hfirst).
    cbn. do 2 f_equal.
    destruct (Nat.lt_total i (length (users w))) as [Hlt|[Heq|Hgt]].
    + exfalso. rewrite lookup_app_l in Hi by exact Hlt.
      apply (nameTaken_false _ _ E (Username u)); [|apply Hu].
      apply list_elem_of_fmap_2. eapply list_elem_of_lookup_2, Hi.
    + exact Heq.
    + exfalso. apply lookup_lt_Some in Hi. rewrite length_app in Hi. cbn in Hi. lia.
  - exfalso. apply list_find_None in HF.
    apply Forall_app in HF. destruct HF as [_ HF].
    inversion HF as [|? ? Hn _]. apply Hn. split; reflexivity.
Qed.

Lemma registered_customer_can_log_in_witness :
  exists u,
    (login (run registerCustomer
              (hotel [typed "bob"; typed "pw"; number "1" 1;
                      typed "bob"; typed "pw"]))).1 = Value (Some 2%nat) /\
    users (run registerCustomer
             (hotel [typed "bob"; typed "pw"; number "1" 1;
                     typed "bob"; typed "pw"])) !! 2%nat = Some u /\
    Username u = "bob" /\ Password u = "pw" /\
    Role u = "customer" /\ Balance u = 1000%float.
Proof.
  apply (registered_customer_can_log_in
           (hotel [typed "bob"; typed "pw"; number "1" 1; typed "bob"; typed "pw"]));
    reflexivity.
Defined.

(** ** Not a number *)

Lemma is_nan_spec (x : float) : is_nan x = true <-> Prim2SF x = S754_nan.
Proof.
  unfold is_nan. rewrite FloatAxioms.eqb_spec. unfold SFeqb.
  destruct (Prim2SF x) as [s|s| |s m e]; cbn.
  - split; discriminate.
  - destruct s; split; discriminate.
  - split; reflexivity.
  - rewrite Z.compare_refl, Pos.compare_cont_refl.
    destruct s; split; discriminate.
Qed.

Lemma ltb_nan (x y : float) :
  is_nan x = true \/ is_nan y = true -> (x <? y)%float = false.
Proof.
  rewrite !is_nan_spec, FloatAxioms.ltb_spec. unfold SFltb.
  intros [->| ->]; [reflexivity|]. destruct (Prim2SF x); reflexivity.
Qed.

Lemma mul_nan (x y : float) : is_nan x = true -> is_nan (x * y) = true.
Proof. rewrite !is_nan_spec, FloatAxioms.mul_spec. intros ->. reflexivity. Qed.

Lemma sub_nan (x y : float) :
  is_nan x = true \/ is_nan y = true -> is_nan (x - y) = true.
Proof.
  rewrite !is_nan_spec, FloatAxioms.sub_spec.
  intros [->| ->]; [reflexivity|]. destruct (Prim2SF x); reflexivity.
Qed.

(** X15.  The funds check is the comparison [Balance < cost], which is
    false when either side is not a number: with a NaN price or a NaN
    balance a booking of an available room is never refused for lack of
    funds; the rooms are reserved and the customer's balance becomes NaN. *)
Theorem nan_passes_the_funds_check
  (customer : nat) (w : World) (id : Z) (i : nat) (room : Room) (q : Z) (c : User) :
  Atoi (text (input 0 w)) = Some id ->
  list_find (fun r => RoomID r = id) (rooms w) = Some (i, room) ->
  Atoi (text (input 1 w)) = Some q ->
  0 < q -> q <= Available room ->
  users w !! customer = Some c ->
  is_nan (Balance c) = true \/ is_nan (Price room) = true ->
  rooms (run (bookRoom customer) w) =
    <[i:=set_Available (wrap64 (Available room - q)) room]> (rooms w) /\
  exists c', users (run (bookRoom customer) w) !! customer = Some c' /\
             is_nan (Balance c') = true.
Proof.
  intros HA HF HQ Hq Hle Hc Hnan.
  assert (is_nan (Balance c) = true \/
          is_nan (Price room * float64_of_int q) = true) as Hcost.
  { destruct Hnan as [H|H]; [left; exact H | right; apply mul_nan, H]. }
  destruct (bookRoom_booked customer w id i room HA HF q HQ Hq Hle c Hc
              (ltb_nan _ _ Hcost)) as [HU HR].
  split; [exact HR|]. eexists. split.
  - rewrite HU. apply list_lookup_insert_eq. eapply lookup_lt_Some, Hc.
  - cbn [Balance set_Balance]. apply sub_nan, Hcost.
Qed.

Lemma nan_passes_the_funds_check_witness :
  let w := mkWorld [alice] [mkRoom 1 "Single" nan 5 5]
             [number "1" 1; number "2" 2] [] [] in
  rooms (run (bookRoom 0) w) =
    <[0%nat:=set_Available (wrap64 (5 - 2)) (mkRoom 1 "Single" nan 5 5)]> (rooms w) /\
  exists c', users (run (bookRoom 0) w) !! 0%nat = Some c' /\
             is_nan (Balance c') = true.
Proof.
  intros w.
  apply (nan_passes_the_funds_check 0 w 1 0 (mkRoom 1 "Single" nan 5 5) 2 alice);
    first [ reflexivity | lia | cbn; lia | right; reflexivity ].
Defined.

(** ** Booking twice *)

Lemma found_after_insert {A} (P : A -> Prop) `{!forall x, Decision (P x)}
    (l : list A) (i : nat) (x y : A) :
  list_find P l = Some (i, x) -> P y -> list_find P (<[i:=y]> l) = Some (i, y).
Proof.
  intros HF Hy. apply list_find_Some in HF. destruct HF as (Hi & _ & Hfirst).
  apply list_find_Some. repeat split.
  - apply list_lookup_insert_eq. eapply lookup_lt_Some, Hi.
  - exact Hy.
  - intros j z Hj Hlt. rewrite list_lookup_insert_ne in Hj by lia.
    apply (Hfirst j z Hj Hlt).
Qed.

Lemma bookRoom_reads_two (customer : nat) (w : World) (id : Z) (i : nat)
    (room : Room) (q : Z) (c : User) :
  Atoi (text (input 0 w)) = Some id ->
  list_find (fun r => RoomID r = id) (rooms w) = Some (i, room) ->
  Atoi (text (input 1 w)) = Some q ->
  0 < q -> q <= Available room ->
  users w !! customer = Some c ->
  (Balance c <? Price room * float64_of_int q)%float = false ->
  stdin (run (bookRoom customer) w) = skip 2 (stdin w).
Proof.
  intros HA HF HQ Hpos Hav Hc Hb.
  pose proof (found_lookup _ _ _ _ HF) as Hr.
  pose proof (nonempty_length _ (found_nonempty _ _ _ _ HF)) as Hne.
  apply Z.leb_gt in Hpos.
  assert (Hle : (q >? Available room) = false)
    by (rewrite Z.gtb_ltb; apply Z.ltb_ge; exact Hav).
  start w. book. reflexivity.
Qed.

(** X16.  No overbooking: once a booking of [q] units of a room has gone
    through, a further request for that room, by any customer, for more
    than the units that were left is refused and changes nothing. *)
Theorem second_booking_sees_the_first
  (customer other : nat) (w : World) (id : Z) (i : nat) (room : Room)
  (q q' : Z) (c : User) :
  Atoi (text (input 0 w)) = Some id ->
  list_find (fun r => RoomID r = id) (rooms w) = Some (i, room) ->
  Atoi (text (input 1 w)) = Some q ->
  0 < q -> q <= Available room ->
  users w !! customer = Some c ->
  (Balance c <? Price room * float64_of_int q)%float = false ->
  Atoi (text (input 2 w)) = Some id ->
  Atoi (text (input 3 w)) = Some q' ->
  Available room - q < q' ->
  aborted "预订数量超过剩余房间数"
    (run (bookRoom customer) w)
    (run (bookRoom other) (run (bookRoom customer) w)).
Proof.
  intros HA HF HQ Hpos Hav Hc Hb HA' HQ' Hmore.
  destruct (bookRoom_booked customer w id i room HA HF q HQ Hpos Hav c Hc Hb)
    as [_ HR].
  pose proof (bookRoom_reads_two customer w id i room q c HA HF HQ Hpos Hav Hc Hb)
    as HI.
  set (w1 := run (bookRoom customer) w) in *.
  assert (input 0 w1 = input 2 w) as H0 by (unfold input; rewrite HI; reflexivity).
  assert (input 1 w1 = input 3 w) as H1 by (unfold input; rewrite HI; reflexivity).
  pose proof (wrap64_le (Available room - q)) as Hw.
  apply (bookRoom_too_many other w1 id i
           (set_Available (wrap64 (Available room - q)) room)) with (q := q').
  - rewrite H0. exact HA'.
  - rewrite HR. apply (found_after_insert _ _ _ room); [exact HF|].
    cbn [RoomID set_Available]. apply (found_holds _ _ _ _ HF).
  - rewrite H1. exact HQ'.
  - lia.
  - cbn [Available set_Available]. lia.
Qed.

Lemma second_booking_sees_the_first_witness :
  let w := hotel [number "1" 1; number "3" 3; number "1" 1; number "3" 3] in
  aborted "预订数量超过剩余房间数"
    (run (bookRoom 1) w) (run (bookRoom 1) (run (bookRoom 1) w)).
Proof.
  intros w.
  apply (second_booking_sees_the_first 1 1 w 1 0 single 3 3 alice);
    first [ reflexivity | lia | cbn; lia ].
Defined.

(** ** Deleting, then logging in *)

Lemma deleteUser_confirmed (w : World) (id : Z) (i : nat) (u : User) :
  Atoi (text (input 0 w)) = Some id ->
  list_find (fun u => UserID u = id) (users w) = Some (i, u) ->
  text (input 1 w) = "y" \/ text (input 1 w) = "Y" ->
  users (run deleteUser w) = delete i (users w) /\
  stdin (run deleteUser w) = skip 2 (stdin w).
Proof.
  intros HA HF [Hy|Hy]; start w; unfold deleteUser; execute;
    (split; [symmetry; apply delete_take_drop | reflexivity]).
Qed.

Lemma deleted_name_gone (l : list User) (i : nat) (u u0 : User) :
  NoDup (Username <$> l) -> l !! i = Some u -> u0 ∈ delete i l ->
  Username u0 <> Username u.
Proof.
  intros Hnd Hi Hin E. apply list_elem_of_lookup in Hin. destruct Hin as [j Hj].
  rewrite list_lookup_delete in Hj.
  assert (forall k, k <> i -> l !! k = Some u0 -> False) as Hno.
  { intros k Hk Hl. apply Hk.
    apply (NoDup_lookup (Username <$> l) k i (Username u) Hnd).
    - rewrite list_lookup_fmap, Hl, <- E. reflexivity.
    - rewrite list_lookup_fmap, Hi. reflexivity. }
  destruct (decide (j < i)%nat);
    [apply (Hno j) | apply (Hno (S j))]; first [lia | exact Hj].
Qed.

(** X17.  A deleted account can no longer log in: when user names are
    unique and the deletion of a user is confirmed, a login under that
    user's name fails, whatever password is typed. *)
Theorem deleted_user_cannot_log_in (w : World) (id : Z) (i : nat) (u : User) :
  NoDup (Username <$> users w) ->
  Atoi (text (input 0 w)) = Some id ->
  list_find (fun u => UserID u = id) (users w) = Some (i, u) ->
  text (input 1 w) = "y" \/ text (input 1 w) = "Y" ->
  text (input 2 w) = Username u ->
  (login (run deleteUser w)).1 = Value None /\
  reported (Println "用户名或密码错误！") (login (run deleteUser w)).2.
Proof.
  intros Hnd HA HF Hyes Hname.
  destruct (deleteUser_confirmed w id i u HA HF Hyes) as [HU HI].
  pose proof (found_lookup _ _ _ _ HF) as Hi.
  assert (list_find (fun u0 => Username u0 = text (input 0 (run deleteUser w)) /\
                               Password u0 = text (input 1 (run deleteUser w)))
            (users (run deleteUser w)) = None) as HN.
  { apply list_find_None, Forall_forall. intros u0 Hin [Hn _].
    rewrite HU in Hin. apply (deleted_name_gone _ _ _ _ Hnd Hi Hin).
    rewrite Hn, <- Hname. unfold input. rewrite HI. reflexivity. }
  split.
  - rewrite login_finds, HN. reflexivity.
  - revert HN. generalize (run deleteUser w). intros w1 HN.
    destruct w1 as [us rs inp outp answers]. unfold login. crunch.
    unfold input, skip in HN. cbn [users stdin] in HN. rewrite HN.
    crunch. apply last_snoc.
Qed.

Lemma deleted_user_cannot_log_in_witness :
  let w := hotel [number "2" 2; typed "y"; typed "alice"; typed "secret"] in
  (login (run deleteUser w)).1 = Value None /\
  reported (Println "用户名或密码错误！") (login (run deleteUser w)).2.
Proof.
  intros w. apply (deleted_user_cannot_log_in w 2 1 alice).
  - apply (bool_decide_unpack _). vm_compute. exact I.
  - reflexivity.
  - reflexivity.
  - left. reflexivity.
  - reflexivity.
Defined.
